(** * mylog: a leveled logger (src/log.go)

    A shallow embedding of the logger's write path: the integer renderer
    [itoa], the header formatter [formatHeader], the buffer pool
    ([getBuffer], [putBuffer]), the write path [output], the leveled
    emitters and the configuration accessors.

    Conventions.
    - A Go [int] is a 64-bit two's complement integer, held as a [Z] and read
      through [wrap64]; a conversion to [int32] is [wrap32], one to [uint8]
      (a [byte], a [Level]) is [to_byte]; a widening conversion keeps the
      value.
    - A Go [string] and a [[]byte] are both sequences of bytes; a byte is a
      [Z] in [0, 256).
    - A run-time panic (index out of range, call through a nil interface) is
      the outcome [Panic]. *)

From Stdlib Require Import String Ascii.
From Stdlib Require Import ZArith List Lia Bool.
From Equations Require Import Equations.
Import ListNotations.

#[local] Open Scope Z_scope.

(** ** Machine integers and bytes *)

Definition byte := Z.
Definition bytes := list byte.

Definition wrap64 (z : Z) : Z := (z + 2 ^ 63) mod 2 ^ 64 - 2 ^ 63.
Definition wrap32 (z : Z) : Z := (z + 2 ^ 31) mod 2 ^ 32 - 2 ^ 31.
Definition to_byte (z : Z) : byte := z mod 256.

Definition int_range (z : Z) : Prop := - 2 ^ 63 <= z < 2 ^ 63.
Definition int32_range (z : Z) : Prop := - 2 ^ 31 <= z < 2 ^ 31.
Definition uint8_range (z : Z) : Prop := 0 <= z < 256.

(** A Go string literal, as its bytes. *)
Definition str (s : string) : bytes :=
  map (fun c => Z.of_N (N_of_ascii c)) (list_ascii_of_string s).

Definition NL : byte := 10.
Definition SLASH : byte := 47.
Definition ZERO : byte := 48.

Arguments str s%_string.

(** ** Outcomes: a value, or a run-time panic *)

Inductive Outcome (A : Type) : Type :=
| Done (a : A)
| Panic.
Arguments Done {A} a.
Arguments Panic {A}.

Definition bind {A B} (m : Outcome A) (k : A -> Outcome B) : Outcome B :=
  match m with
  | Done a => k a
  | Panic => Panic
  end.

Notation "x <- m ;; k" := (bind m (fun x => k))
  (at level 61, m at next level, right associativity).

Definition inspect {A} (a : A) : {b : A | a = b} := exist _ a eq_refl.

(** ** Slices

    A [[]byte] value: its contents (the first [len] bytes of the backing
    array) and its capacity.  The growth policy of [append] belongs to the Go
    runtime and is a parameter: [growslice oldcap needed] is the capacity
    of the reallocated array. *)

Record Slice := mkSlice { data : bytes; capacity : Z }.

Definition nil_slice : Slice := mkSlice [] 0.
Definition len (s : Slice) : Z := Z.of_nat (length (data s)).

Section Runtime.

Variable growslice : Z -> Z -> Z.

Definition append (s : Slice) (x : bytes) : Slice :=
  let n := Z.of_nat (length (data s ++ x)) in
  mkSlice (data s ++ x)
          (if n <=? capacity s then capacity s else growslice (capacity s) n).

(** ** itoa (log.go:64-76) *)

(** [b[idx] = v] on a fixed array. *)
Definition array_set (b : bytes) (idx : Z) (v : byte) : Outcome bytes :=
  if (0 <=? idx) && (idx <? Z.of_nat (length b))
  then Done (firstn (Z.to_nat idx) b ++ v :: skipn (S (Z.to_nat idx)) b)
  else Panic.

(** [b[idx:]] on a fixed array. *)
Definition array_from (b : bytes) (idx : Z) : Outcome bytes :=
  if (0 <=? idx) && (idx <=? Z.of_nat (length b))
  then Done (skipn (Z.to_nat idx) b)
  else Panic.

(** The loop [for i >= 10 || wid > 1 { ... }]; it yields the scratch array,
    [bp] and [i] as they stand when the condition fails.  Every iteration
    that does not panic has stored at [b[bp]], so [bp] was a valid index and
    decreases. *)
Equations? itoa_loop (b : bytes) (bp i wid : Z) : Outcome (bytes * Z * Z)
  by wf (Z.to_nat (bp + 1)) lt :=
itoa_loop b bp i wid with inspect ((10 <=? i) || (1 <? wid)) := {
  | exist _ false _ => Done (b, bp, i)
  | exist _ true _ with inspect (array_set b bp (to_byte (ZERO + i - Z.quot i 10 * 10))) := {
    | exist _ Panic _ => Panic
    | exist _ (Done b') Hset =>
        itoa_loop b' (bp - 1) (Z.quot i 10) (wrap64 (wid - 1)) } }.
Proof.
  unfold array_set in Hset.
  destruct (0 <=? bp) eqn:Hbp; simpl in Hset; [ | discriminate ].
  apply Z.leb_le in Hbp. lia.
Qed.

(** The bytes [b[bp:]] that [itoa] appends. *)
Definition itoa_digits (i wid : Z) : Outcome bytes :=
  let b := repeat 0 20 in
  let bp := Z.of_nat (length b) - 1 in
  r <- itoa_loop b bp (wrap64 i) (wrap64 wid) ;;
  let '(b, bp, i) := r in
  b <- array_set b bp (to_byte (ZERO + i)) ;;
  array_from b bp.

Definition itoa (buf : Slice) (i wid : Z) : Outcome Slice :=
  ds <- itoa_digits i wid ;;
  Done (append buf ds).

(** What [itoa] appends, as plain bytes (empty where [itoa] panics). *)
Definition itoa_text (i wid : Z) : bytes :=
  match itoa_digits i wid with
  | Done ds => ds
  | Panic => []
  end.

(** ** Flags and levels (log.go:20-36) *)

Definition DEBUG : Z := 0.
Definition INFO : Z := 1.
Definition ERROR : Z := 2.

Definition Ldate : Z := Z.shiftl 1 0.
Definition Ltime : Z := Z.shiftl 1 1.
Definition Lmicroseconds : Z := Z.shiftl 1 2.
Definition Llongfile : Z := Z.shiftl 1 3.
Definition Lshortfile : Z := Z.shiftl 1 4.
Definition LUTC : Z := Z.shiftl 1 5.
Definition LstdFlags : Z := Z.lor Ldate Ltime.

(** [flag&m != 0] *)
Definition has (flag m : Z) : bool := negb (Z.land flag m =? 0).

(** ** Time values

    [time.Time] is an external collaborator.  A value carries its calendar
    reading in its own location and in UTC; [t.UTC()] moves it to UTC. *)

Record Civil := mkCivil
  { c_year : Z; c_month : Z; c_day : Z;
    c_hour : Z; c_min : Z; c_sec : Z; c_nsec : Z }.

Record Time := mkTime { in_loc : Civil; in_utc : Civil }.

Definition UTC (t : Time) : Time := mkTime (in_utc t) (in_utc t).
Definition Date (t : Time) : Z * Z * Z :=
  (c_year (in_loc t), c_month (in_loc t), c_day (in_loc t)).
Definition Clock (t : Time) : Z * Z * Z :=
  (c_hour (in_loc t), c_min (in_loc t), c_sec (in_loc t)).
Definition Nanosecond (t : Time) : Z := c_nsec (in_loc t).

(** ** formatHeader (log.go:78-126) *)

(** The scan [for i := len(file) - 1; i > 0; i-- { if file[i] == '/' {...} }]:
    [short_scan file i] is the value of [short] when the loop is about to
    test index [i]. *)
Fixpoint short_scan (file : bytes) (i : nat) : bytes :=
  match i with
  | O => file
  | S j => if nth i file 0 =? SLASH then skipn (i + 1) file
           else short_scan file j
  end.

Definition shortfile (file : bytes) : bytes :=
  short_scan file (length file - 1).

(** Lines 86-94: the date. *)
Definition formatDate (buf : Slice) (t : Time) : Outcome Slice :=
  let '(year, month, day) := Date t in
  buf <- itoa buf year 4 ;;
  let buf := append buf (str "/") in
  buf <- itoa buf month 2 ;;
  let buf := append buf (str "/") in
  buf <- itoa buf day 2 ;;
  Done (append buf (str " ")).

(** Lines 95-107: the time of day. *)
Definition formatClock (buf : Slice) (t : Time) (flag : Z) : Outcome Slice :=
  let '(hour, min, sec) := Clock t in
  buf <- itoa buf hour 2 ;;
  let buf := append buf (str ":") in
  buf <- itoa buf min 2 ;;
  let buf := append buf (str ":") in
  buf <- itoa buf sec 2 ;;
  buf <- (if has flag Lmicroseconds then
            let buf := append buf (str ".") in
            itoa buf (Z.quot (Nanosecond t) 1000) 6
          else Done buf) ;;
  Done (append buf (str " ")).

(** Lines 110-125: the caller location. *)
Definition formatLocation (buf : Slice) (flag : Z) (file : bytes) (line : Z)
  : Outcome Slice :=
  let file := if has flag Lshortfile then shortfile file else file in
  let buf := append buf file in
  let buf := append buf (str ":") in
  buf <- itoa buf line (-1) ;;
  Done (append buf (str ": ")).

(** Lines 82-108: the time stamp. *)
Definition formatStamp (buf : Slice) (t : Time) (flag : Z) : Outcome Slice :=
  if has flag (Z.lor (Z.lor Ldate Ltime) Lmicroseconds) then
    let t := if has flag LUTC then UTC t else t in
    buf <- (if has flag Ldate then formatDate buf t else Done buf) ;;
    if has flag (Z.lor Ltime Lmicroseconds)
    then formatClock buf t flag else Done buf
  else Done buf.

Definition formatHeader (buf : Slice) (t : Time) (prefix : bytes) (flag : Z)
    (levelStr : bytes) (file : bytes) (line : Z) : Outcome Slice :=
  let buf := append buf prefix in
  let buf := append buf levelStr in
  buf <- formatStamp buf t flag ;;
  if has flag (Z.lor Lshortfile Llongfile)
  then formatLocation buf flag file line
  else Done buf.

(** ** The world outside the logger

    What a call can observe or change besides the logger's own fields: the
    process-wide buffer pool and the trace of calls made to collaborators. *)

Definition error := string.

Inductive Event :=
| EvNow
| EvCaller (calldepth : Z)
| EvFrames (pc : Z)
| EvGet
| EvPut (p : Slice)
| EvWrite (p : bytes).

Record World := mkWorld { pool : list Slice; events : list Event }.

Definition emit (ev : Event) (w : World) : World :=
  mkWorld (pool w) (events w ++ [ev]).

(** An [io.Writer]: the nil interface, the [io.Discard] singleton, or a sink
    whose [Write] answers from what has happened so far and the bytes. *)
Inductive Writer :=
| NilWriter
| Discard
| Sink (write : list Event -> bytes -> Z * option error).

Definition is_Discard (w : Writer) : bool :=
  match w with Discard => true | _ => false end.

(** The collaborators of one call: the clock, the caller-location resolver
    ([runtime.Caller] gives file, line, ok; [runtime.CallersFrames] gives
    File, Line of the first frame), and which pooled buffer [sync.Pool.Get]
    hands out ([None], or an index out of range: a buffer made by [New]). *)
Record Env := mkEnv
  { Now : Time;
    Caller : Z -> bytes * Z * bool;
    CallersFrames : Z -> bytes * Z;
    pool_pick : list Slice -> option nat }.

(** ** Buffer pool (log.go:128-141) *)

Definition pool_Get (e : Env) (w : World) : Slice * World :=
  let w' := emit EvGet w in
  match pool_pick e (pool w) with
  | Some k =>
      match nth_error (pool w) k with
      | Some p => (p, mkWorld (firstn k (pool w) ++ skipn (S k) (pool w)) (events w'))
      | None => (nil_slice, w')
      end
  | None => (nil_slice, w')
  end.

Definition pool_Put (p : Slice) (w : World) : World :=
  mkWorld (p :: pool w) (events w ++ [EvPut p]).

Definition getBuffer (e : Env) (w : World) : Slice * World :=
  let '(p, w) := pool_Get e w in
  (mkSlice [] (capacity p), w).

Definition putBuffer (p : Slice) (w : World) : World :=
  let p := if capacity p >? Z.shiftl 64 10 then nil_slice else p in
  pool_Put p w.

(** ** Logger (log.go:38-62, 222-253) *)

Record Logger := mkLogger
  { out : Writer;
    prefix : option bytes;
    flag : Z;
    isDiscard : bool;
    minLevel : Z }.

Definition new_Logger : Logger := mkLogger NilWriter None 0 false 0.

Definition SetOutput (w : Writer) (l : Logger) : Logger :=
  mkLogger w (prefix l) (flag l) (is_Discard w) (minLevel l).

(** [int(l.flag.Load())]: widening an [int32] keeps the value. *)
Definition Flags (l : Logger) : Z := flag l.

Definition SetFlags (x : Z) (l : Logger) : Logger :=
  mkLogger (out l) (prefix l) (wrap32 x) (isDiscard l) (minLevel l).

Definition Prefix (l : Logger) : bytes :=
  match prefix l with
  | Some p => p
  | None => []
  end.

Definition SetPrefix (s : bytes) (l : Logger) : Logger :=
  mkLogger (out l) (Some s) (flag l) (isDiscard l) (minLevel l).

Definition Level (l : Logger) : Z := to_byte (minLevel l).

(** [int32(level)]: widening a [uint8] keeps the value. *)
Definition SetLevel (level : Z) (l : Logger) : Logger :=
  mkLogger (out l) (prefix l) (flag l) (isDiscard l) level.

Definition Writer_of (l : Logger) : Writer := out l.

Definition New (w : Writer) (p : bytes) (x : Z) (level : Z) : Logger :=
  SetLevel level (SetFlags x (SetPrefix p (SetOutput w new_Logger))).

(** ** output (log.go:143-202) *)

Definition levelTag (level : Z) : bytes :=
  if level =? DEBUG then str "[DEBUG] "
  else if level =? INFO then str "[INFO]  "
  else if level =? ERROR then str "[ERROR] "
  else str "[?????] ".

(** Lines 157-176: where the caller is, when a file flag asks for it. *)
Definition locate (e : Env) (w : World) (flag pc calldepth : Z)
  : bytes * Z * World :=
  if has flag (Z.lor Lshortfile Llongfile) then
    if pc =? 0 then
      let '(file, line, ok) := Caller e calldepth in
      let w := emit (EvCaller calldepth) w in
      if ok then (file, line, w) else (str "???", 0, w)
    else
      let '(file, line) := CallersFrames e pc in
      let w := emit (EvFrames pc) w in
      ((match file with [] => str "???" | _ => file end), line, w)
  else ([], 0, w).

(** Lines 194-196: the newline guard. *)
Definition ensure_newline (buf : Slice) : Slice :=
  if (len buf =? 0) || negb (last (data buf) 0 =? NL)
  then append buf [NL] else buf.

(** [l.out.Write( *buf)] *)
Definition sink_Write (o : Writer) (w : World) (p : bytes)
  : Outcome (option error * World) :=
  match o with
  | NilWriter => Panic
  | Discard => Done (None, emit (EvWrite p) w)
  | Sink write => Done (snd (write (events w) p), emit (EvWrite p) w)
  end.

Definition output (e : Env) (l : Logger) (w : World) (level : Z)
    (pc calldepth : Z) (appendOutput : Slice -> Slice)
  : Outcome (option error * World) :=
  if level <? minLevel l then Done (None, w)
  else if isDiscard l then Done (None, w)
  else
    let now := Now e in
    let w := emit EvNow w in
    let prefix := Prefix l in
    let flag := Flags l in
    let '(file, line, w) := locate e w flag pc calldepth in
    let levelStr := levelTag level in
    let '(buf, w) := getBuffer e w in
    buf <- formatHeader buf now prefix flag levelStr file line ;;
    let buf := ensure_newline (appendOutput buf) in
    r <- sink_Write (out l) w (data buf) ;;
    let '(err, w) := r in
    Done (err, putBuffer buf w).

(** ** Emitters (log.go:204-220)

    [fmt.Appendln] is the standard library's: the operands in their default
    formats, a space between every two, and a newline after the last.  An
    argument list is given by the texts of its operands. *)

Fixpoint join_space (v : list bytes) : bytes :=
  match v with
  | [] => []
  | [x] => x
  | x :: rest => x ++ str " " ++ join_space rest
  end.

Definition Appendln (b : Slice) (v : list bytes) : Slice :=
  append b (join_space v ++ [NL]).

(** The emitters have no result: what [output] returns is dropped. *)
Definition emitter (level : Z) (e : Env) (l : Logger) (w : World)
    (v : list bytes) : Outcome (unit * World) :=
  r <- output e l w level 0 2 (fun b => Appendln b v) ;;
  Done (tt, snd r).

Definition Debug := emitter DEBUG.
Definition Info := emitter INFO.
Definition Error := emitter ERROR.

(** ** Reference notions used to state the properties *)

(** Decimal text: every byte a digit, read most significant first. *)
Definition is_digit (b : byte) : Prop := 48 <= b <= 57.

Definition decimal_value (ds : bytes) : Z :=
  fold_left (fun acc d => 10 * acc + (d - 48)) ds 0.

(** [has_ndigits i n]: the decimal numeral of [i >= 0] has [n] digits. *)
Definition has_ndigits (i n : Z) : Prop :=
  1 <= n /\ i < 10 ^ n /\ (n = 1 \/ 10 ^ (n - 1) <= i).

(** One more than the largest [k <= bound] with [10^k <= i]. *)
Fixpoint ndigits_upto (bound : nat) (i : Z) : Z :=
  match bound with
  | O => 1
  | S k => if 10 ^ Z.of_nat bound <=? i then Z.of_nat bound + 1
           else ndigits_upto k i
  end.

(** Number of decimal digits of a non-negative 64-bit integer. *)
Definition ndigits (i : Z) : Z := ndigits_upto 18 i.

(** The text after the last ['/'] of [s], when [s] has one. *)
Fixpoint after_last_slash (s : bytes) : option bytes :=
  match s with
  | [] => None
  | c :: r =>
      match after_last_slash r with
      | Some t => Some t
      | None => if c =? SLASH then Some r else None
      end
  end.

(** The short form of a path, read front to back: the text after the last
    separator that is not the path's first byte; the whole path when there
    is no such separator. *)
Definition base_name (file : bytes) : bytes :=
  match file with
  | [] => []
  | c :: r =>
      match after_last_slash r with
      | Some t => t
      | None => file
      end
  end.

(** The header as plain text, field by field. *)
Definition date_text (t : Time) : bytes :=
  itoa_text (c_year (in_loc t)) 4 ++ str "/" ++
  itoa_text (c_month (in_loc t)) 2 ++ str "/" ++
  itoa_text (c_day (in_loc t)) 2 ++ str " ".

Definition clock_text (t : Time) (flag : Z) : bytes :=
  itoa_text (c_hour (in_loc t)) 2 ++ str ":" ++
  itoa_text (c_min (in_loc t)) 2 ++ str ":" ++
  itoa_text (c_sec (in_loc t)) 2 ++
  (if has flag Lmicroseconds
   then str "." ++ itoa_text (Z.quot (c_nsec (in_loc t)) 1000) 6 else []) ++
  str " ".

Definition location_text (flag : Z) (file : bytes) (line : Z) : bytes :=
  (if has flag Lshortfile then shortfile file else file) ++
  str ":" ++ itoa_text line (-1) ++ str ": ".

Definition stamp_text (t : Time) (flag : Z) : bytes :=
  if has flag (Z.lor (Z.lor Ldate Ltime) Lmicroseconds) then
    let t := if has flag LUTC then UTC t else t in
    (if has flag Ldate then date_text t else []) ++
    (if has flag (Z.lor Ltime Lmicroseconds) then clock_text t flag else [])
  else [].

Definition header_text (t : Time) (prefix : bytes) (flag : Z)
    (levelStr file : bytes) (line : Z) : bytes :=
  prefix ++ levelStr ++ stamp_text t flag ++
  (if has flag (Z.lor Lshortfile Llongfile)
   then location_text flag file line else []).

(** The two gates of [output] (lines 144-150). *)
Definition gated (l : Logger) (level : Z) : bool :=
  (level <? minLevel l) || isDiscard l.

(** The payloads of the [Write] calls in a trace, oldest first. *)
Definition writes_of (evs : list Event) : list bytes :=
  flat_map (fun ev => match ev with EvWrite p => [p] | _ => [] end) evs.

(** File and line that [output] hands to [formatHeader]. *)
Definition where_called (e : Env) (flag pc calldepth : Z) : bytes * Z :=
  fst (locate e (mkWorld [] []) flag pc calldepth).

(** The line [output] renders at [level] for the operand texts [v] when the
    message is appended by [fmt.Appendln]. *)
Definition line_text (e : Env) (l : Logger) (level pc calldepth : Z)
    (v : list bytes) : bytes :=
  let '(file, line) := where_called e (Flags l) pc calldepth in
  header_text (Now e) (Prefix l) (Flags l) (levelTag level) file line ++
  join_space v ++ [NL].

(** How many ['\n'] bytes a text ends with. *)
Fixpoint leading_newlines (p : bytes) : nat :=
  match p with
  | b :: r => if b =? NL then S (leading_newlines r) else O
  | [] => O
  end.

Definition trailing_newlines (p : bytes) : nat := leading_newlines (rev p).

Definition ends_with_space (x : bytes) : Prop := exists x', x = x' ++ [32].

(** What a call hands back to its caller. *)
Definition returned {A} (o : Outcome (A * World)) : option A :=
  match o with
  | Done (a, _) => Some a
  | Panic => None
  end.

(** A calendar reading as [time.Time] gives it, with a four-digit year. *)
Definition calendar_ok (c : Civil) : Prop :=
  0 <= c_year c <= 9999 /\ 1 <= c_month c <= 12 /\ 1 <= c_day c <= 31 /\
  0 <= c_hour c <= 23 /\ 0 <= c_min c <= 59 /\ 0 <= c_sec c <= 59 /\
  0 <= c_nsec c <= 999999999.

(** No pooled buffer is larger than the 64 KiB threshold. *)
Definition pool_bounded (w : World) : Prop :=
  Forall (fun p => capacity p <= 65536) (pool w).

(** The caller lookups of lines 159-176, as trace events. *)
Definition caller_events (flag pc calldepth : Z) : list Event :=
  if has flag (Z.lor Lshortfile Llongfile)
  then (if pc =? 0 then [EvCaller calldepth] else [EvFrames pc])
  else [].

(** What [putBuffer] leaves in the pool for a released buffer. *)
Definition pooled (p : Slice) : Slice :=
  if 65536 <? capacity p then nil_slice else p.

(** ** Sample collaborators, for concrete runs *)

(** A growth policy: at least what is needed, at least double. *)
Definition sample_grow (oldcap needed : Z) : Z := Z.max needed (2 * oldcap).

Definition sample_time : Time :=
  mkTime (mkCivil 2024 3 5 8 9 7 123456789) (mkCivil 2024 3 5 7 9 7 123456789).

Definition sample_env : Env :=
  mkEnv sample_time
        (fun _ => (str "/a/b/c.ext", 42, true))
        (fun _ => (str "/src/main.go", 7))
        (fun _ => Some 0%nat).

(** An environment whose caller lookups find nothing. *)
Definition lost_env : Env :=
  mkEnv sample_time
        (fun _ => ([], 0, false))
        (fun _ => ([], 9))
        (fun _ => None).

Definition empty_world : World := mkWorld [] [].

(** A sink that accepts everything, and one whose every [Write] fails. *)
Definition ok_sink (_ : list Event) (p : bytes) : Z * option error :=
  (Z.of_nat (length p), None).

Definition failing_sink (_ : list Event) (_ : bytes) : Z * option error :=
  (0, Some "disk full"%string).

(** A sink whose first [Write] fails and whose later ones succeed. *)
Definition flaky_sink (evs : list Event) (p : bytes) : Z * option error :=
  match writes_of evs with
  | [] => (0, Some "disk full"%string)
  | _ :: _ => (Z.of_nat (length p), None)
  end.

(** * Properties *)

(** ** Machine arithmetic *)

Lemma wrap64_id z : int_range z -> wrap64 z = z.
Proof.
  unfold int_range, wrap64. intros H.
  rewrite Z.mod_small; lia.
Qed.

Lemma wrap32_id z : int32_range z -> wrap32 z = z.
Proof.
  unfold int32_range, wrap32. intros H.
  rewrite Z.mod_small; lia.
Qed.

Lemma wrap64_range z : int_range (wrap64 z).
Proof.
  unfold int_range, wrap64.
  pose proof (Z.mod_pos_bound (z + 2 ^ 63) (2 ^ 64) ltac:(lia)). lia.
Qed.

Lemma to_byte_id z : uint8_range z -> to_byte z = z.
Proof. unfold uint8_range, to_byte. intros H. apply Z.mod_small. lia. Qed.

(** The 64-bit wrap of the digit expression is absorbed by [byte(...)]. *)
Lemma to_byte_wrap64 z : to_byte (wrap64 z) = to_byte z.
Proof.
  unfold to_byte, wrap64.
  rewrite (Z.mod_eq (z + 2 ^ 63) (2 ^ 64)) by lia.
  set (k := (z + 2 ^ 63) / 2 ^ 64).
  replace (z + 2 ^ 63 - 2 ^ 64 * k - 2 ^ 63) with (z + (- (2 ^ 56 * k)) * 256) by lia.
  apply Z_mod_plus_full.
Qed.

(** ** The scratch array *)

Lemma array_set_ok b idx v :
  0 <= idx < Z.of_nat (length b) ->
  exists b', array_set b idx v = Done b' /\ length b' = length b /\
             skipn (Z.to_nat idx) b' = v :: skipn (S (Z.to_nat idx)) b.
Proof.
  intros H. unfold array_set.
  replace (0 <=? idx) with true by (symmetry; apply Z.leb_le; lia).
  replace (idx <? Z.of_nat (length b)) with true by (symmetry; apply Z.ltb_lt; lia).
  cbn [andb]. eexists. split; [ reflexivity | ].
  assert (Hk : (Z.to_nat idx < length b)%nat) by lia.
  assert (Hf : length (firstn (Z.to_nat idx) b) = Z.to_nat idx)
    by (rewrite length_firstn; lia).
  split.
  - rewrite length_app, Hf, length_cons, length_skipn. lia.
  - rewrite skipn_app, Hf, Nat.sub_diag, skipn_O.
    rewrite skipn_all2 by lia. reflexivity.
Qed.

Lemma itoa_loop_eq b bp i wid :
  itoa_loop b bp i wid =
  if (10 <=? i) || (1 <? wid)
  then b' <- array_set b bp (to_byte (ZERO + i - Z.quot i 10 * 10)) ;;
       itoa_loop b' (bp - 1) (Z.quot i 10) (wrap64 (wid - 1))
  else Done (b, bp, i).
Proof.
  funelim (itoa_loop b bp i wid).
  - rewrite e. reflexivity.
  - rewrite e, Hset. reflexivity.
  - rewrite e0, e. reflexivity.
Qed.

(** ** Decimal numerals *)

Lemma decimal_value_snoc ds d :
  decimal_value (ds ++ [d]) = 10 * decimal_value ds + (d - 48).
Proof. unfold decimal_value. rewrite fold_left_app. reflexivity. Qed.

Lemma last_digit i :
  0 <= i -> to_byte (ZERO + i - Z.quot i 10 * 10) = 48 + i mod 10.
Proof.
  intros H. rewrite Z.quot_div_nonneg by lia.
  pose proof (Z.mod_pos_bound i 10 ltac:(lia)).
  pose proof (Z.div_mod i 10 ltac:(lia)).
  unfold to_byte, ZERO.
  replace (48 + i - i / 10 * 10) with (48 + i mod 10) by lia.
  apply Z.mod_small. lia.
Qed.

Lemma ndigits_upto_spec k i :
  0 <= i < 10 ^ (Z.of_nat k + 1) -> has_ndigits i (ndigits_upto k i).
Proof.
  induction k as [ | k IH ]; intros H.
  - simpl in *. unfold has_ndigits. change (10 ^ 1) with 10. lia.
  - cbn [ndigits_upto]. destruct (10 ^ Z.of_nat (S k) <=? i) eqn:E.
    + apply Z.leb_le in E. unfold has_ndigits.
      replace (Z.of_nat (S k) + 1 - 1) with (Z.of_nat (S k)) by lia. lia.
    + apply Z.leb_gt in E. apply IH.
      replace (Z.of_nat k + 1) with (Z.of_nat (S k)) by lia. lia.
Qed.

Lemma ndigits_spec i : 0 <= i < 2 ^ 63 -> has_ndigits i (ndigits i).
Proof.
  intros H. apply ndigits_upto_spec. simpl. lia.
Qed.

Lemma has_ndigits_unique i n m :
  0 <= i -> has_ndigits i n -> has_ndigits i m -> n = m.
Proof.
  unfold has_ndigits. intros Hi (Hn & Hu & Hl) (Hm & Hu' & Hl').
  destruct (Z.lt_trichotomy n m) as [Hlt | [Heq | Hgt]]; [ | exact Heq | ]; exfalso.
  - assert (10 ^ n <= 10 ^ (m - 1)) by (apply Z.pow_le_mono_r; lia). lia.
  - assert (10 ^ m <= 10 ^ (n - 1)) by (apply Z.pow_le_mono_r; lia). lia.
Qed.

(** ** itoa: the loop invariant

    With [n + 1] free slots below and at [bp = n], a value below
    [10^(n+1)] and a width of at most [n + 1] fit: the loop stores without
    leaving the array and stops with [bp >= 0].  For [i >= 0] the bytes
    stored are the low digits of [i]. *)

Lemma quot_lt_pow i n :
  0 <= n -> i < 10 ^ (n + 1) -> Z.quot i 10 < 10 ^ n.
Proof.
  intros Hn Hi. replace (n + 1) with (Z.succ n) in Hi by lia.
  rewrite Z.pow_succ_r in Hi by lia.
  assert (0 < 10 ^ n) by (apply Z.pow_pos_nonneg; lia).
  destruct (Z.le_gt_cases 0 i).
  - rewrite Z.quot_div_nonneg by lia. apply Z.div_lt_upper_bound; lia.
  - pose proof (Z.quot_opp_l i 10 ltac:(lia)).
    assert (0 <= Z.quot (- i) 10) by (apply Z.quot_pos; lia). lia.
Qed.

Lemma has_ndigits_quot i k :
  10 <= i -> has_ndigits i k -> has_ndigits (Z.quot i 10) (k - 1).
Proof.
  unfold has_ndigits. intros Hi (Hk & Hu & Hl).
  rewrite Z.quot_div_nonneg by lia.
  assert (2 <= k).
  { destruct (Z.le_gt_cases 2 k); [ assumption | ].
    replace k with 1 in Hu by lia. change (10 ^ 1) with 10 in Hu. lia. }
  destruct Hl as [ -> | Hl ]; [ lia | ].
  replace k with (Z.succ (k - 1)) in Hu by lia.
  rewrite Z.pow_succ_r in Hu by lia.
  split; [ lia | ]. split.
  - apply Z.div_lt_upper_bound; lia.
  - destruct (Z.eq_dec (k - 1) 1) as [ E | E ]; [ left; exact E | right ].
    replace (k - 1) with (Z.succ (k - 1 - 1)) in Hl by lia.
    rewrite Z.pow_succ_r in Hl by lia.
    apply Z.div_le_lower_bound; lia.
Qed.

Lemma has_ndigits_small i k : 0 <= i < 10 -> has_ndigits i k -> k = 1.
Proof.
  intros Hi Hk. apply (has_ndigits_unique i); [ lia | exact Hk | ].
  unfold has_ndigits. change (10 ^ 1) with 10. lia.
Qed.

Lemma itoa_loop_spec (n : nat) : forall b i wid,
  length b = 20%nat -> (n < 20)%nat ->
  i < 10 ^ (Z.of_nat n + 1) ->
  - 2 ^ 63 + Z.of_nat n < wid <= Z.of_nat n + 1 ->
  exists b' m i' R,
    itoa_loop b (Z.of_nat n) i wid = Done (b', Z.of_nat m, i') /\
    length b' = 20%nat /\ (m <= n)%nat /\ i' < 10 /\
    skipn (S m) b' = R ++ skipn (S n) b /\
    (0 <= i ->
     0 <= i' /\ Forall is_digit R /\
     decimal_value ((ZERO + i') :: R) = i /\
     forall k, has_ndigits i k -> 1 + Z.of_nat (length R) = Z.max wid k).
Proof.
  induction n as [ | n IH ]; intros b i wid Hb Hn Hi Hw;
    rewrite itoa_loop_eq.
  - change (10 ^ (Z.of_nat 0 + 1)) with 10 in Hi.
    replace ((10 <=? i) || (1 <? wid)) with false
      by (symmetry; apply orb_false_intro; [ apply Z.leb_gt | apply Z.ltb_ge ]; lia).
    exists b, 0%nat, i, []. repeat split; try lia; try constructor.
    + unfold decimal_value, ZERO. cbn [fold_left]. lia.
    + intros k Hk. apply has_ndigits_small in Hk; [ | lia ].
      subst k. cbn [length]. lia.
  - destruct ((10 <=? i) || (1 <? wid)) eqn:Hc.
    + destruct (array_set_ok b (Z.of_nat (S n))
                  (to_byte (ZERO + i - Z.quot i 10 * 10)))
        as (b1 & Hset & Hlen & Htail); [ lia | ].
      rewrite Hset. cbn [bind].
      rewrite Nat2Z.id in Htail.
      replace (Z.of_nat (S n) - 1) with (Z.of_nat n) by lia.
      rewrite wrap64_id by (unfold int_range; lia).
      destruct (IH b1 (Z.quot i 10) (wid - 1)) as (b' & m & i' & R & Hrun & Hb' & Hm & Hi' & Hsk & Hdig).
      * congruence.
      * lia.
      * apply quot_lt_pow; [ lia | ].
        replace (Z.of_nat n + 1 + 1) with (Z.of_nat (S n) + 1) by lia. exact Hi.
      * lia.
      * exists b', m, i', (R ++ [to_byte (ZERO + i - Z.quot i 10 * 10)]).
        repeat split; try assumption; try lia.
        -- rewrite Hsk, Htail, <- app_assoc. reflexivity.
        -- destruct Hdig as (H0 & _); [ apply Z.quot_pos; lia | exact H0 ].
        -- destruct Hdig as (_ & HR & _); [ apply Z.quot_pos; lia | ].
           apply Forall_app. split; [ exact HR | ].
           constructor; [ | constructor ].
           rewrite last_digit by assumption. unfold is_digit.
           pose proof (Z.mod_pos_bound i 10 ltac:(lia)). lia.
        -- destruct Hdig as (_ & _ & Hv & _); [ apply Z.quot_pos; lia | ].
           change ((ZERO + i') :: R ++ [to_byte (ZERO + i - Z.quot i 10 * 10)])
             with (((ZERO + i') :: R) ++ [to_byte (ZERO + i - Z.quot i 10 * 10)]).
           rewrite decimal_value_snoc, Hv, last_digit by assumption.
           rewrite Z.quot_div_nonneg by lia.
           pose proof (Z.div_mod i 10 ltac:(lia)). lia.
        -- intros k Hk.
           destruct Hdig as (_ & _ & _ & Hl); [ apply Z.quot_pos; lia | ].
           rewrite length_app. cbn [length].
           destruct (Z.le_gt_cases 10 i) as [ Hbig | Hsmall ].
           ++ specialize (Hl (k - 1) (has_ndigits_quot i k Hbig Hk)). lia.
           ++ assert (k = 1) by (apply (has_ndigits_small i); [ lia | exact Hk ]).
              subst k.
              assert (Hq : Z.quot i 10 = 0) by (apply Z.quot_small; lia).
              rewrite Hq in Hl.
              assert (Hone : has_ndigits 0 1)
                by (unfold has_ndigits; change (10 ^ 1) with 10; lia).
              specialize (Hl 1 Hone).
              apply orb_true_iff in Hc. destruct Hc as [ Hc | Hc ];
                [ apply Z.leb_le in Hc | apply Z.ltb_lt in Hc ]; lia.
    + apply orb_false_elim in Hc. destruct Hc as (Hc1 & Hc2).
      apply Z.leb_gt in Hc1. apply Z.ltb_ge in Hc2.
      exists b, (S n), i, []. repeat split; try lia; try constructor.
      * unfold decimal_value, ZERO. cbn [fold_left]. lia.
      * intros k Hk. apply has_ndigits_small in Hk; [ | lia ].
        subst k. cbn [length]. lia.
Qed.

Lemma itoa_digits_spec i wid :
  - 2 ^ 63 + 19 < wid <= 20 ->
  exists ds,
    itoa_digits i wid = Done ds /\
    (0 <= i < 2 ^ 63 ->
     Forall is_digit ds /\ decimal_value ds = i /\
     Z.of_nat (length ds) = Z.max wid (ndigits i)).
Proof.
  intros Hw. unfold itoa_digits.
  rewrite (wrap64_id wid) by (unfold int_range; lia).
  pose proof (wrap64_range i) as Hr. unfold int_range in Hr.
  destruct (itoa_loop_spec 19 (repeat 0 20) (wrap64 i) wid)
    as (b' & m & i' & R & Hrun & Hb' & Hm & Hi' & Hsk & Hdig).
  - apply repeat_length.
  - lia.
  - simpl. lia.
  - simpl. lia.
  - rewrite repeat_length.
    change (Z.of_nat 20 - 1) with (Z.of_nat 19). rewrite Hrun. cbn [bind].
    destruct (array_set_ok b' (Z.of_nat m) (to_byte (ZERO + i')))
      as (b2 & Hset & Hlen & Htail); [ lia | ].
    rewrite Hset. cbn [bind]. rewrite Nat2Z.id in Htail.
    unfold array_from.
    replace (0 <=? Z.of_nat m) with true by (symmetry; apply Z.leb_le; lia).
    replace (Z.of_nat m <=? Z.of_nat (length b2)) with true
      by (symmetry; apply Z.leb_le; lia).
    cbn [andb]. rewrite Nat2Z.id, Htail, Hsk.
    rewrite skipn_all2 by (rewrite repeat_length; lia).
    rewrite app_nil_r.
    eexists. split; [ reflexivity | ].
    intros Hi. rewrite (wrap64_id i) in Hdig by (unfold int_range; lia).
    destruct Hdig as (Hi0 & HR & Hv & Hl); [ lia | ].
    rewrite to_byte_id by (unfold uint8_range, ZERO; lia).
    split; [ | split ].
    + constructor; [ unfold is_digit, ZERO; lia | exact HR ].
    + exact Hv.
    + cbn [length]. specialize (Hl _ (ndigits_spec i Hi)). lia.
Qed.

Lemma itoa_digits_text i wid :
  - 2 ^ 63 + 19 < wid <= 20 -> itoa_digits i wid = Done (itoa_text i wid).
Proof.
  intros Hw. destruct (itoa_digits_spec i wid Hw) as (ds & Hds & _).
  unfold itoa_text. rewrite Hds. reflexivity.
Qed.

Lemma data_append s x : data (append s x) = data s ++ x.
Proof. reflexivity. Qed.

Lemma itoa_text_ok buf i wid :
  - 2 ^ 63 + 19 < wid <= 20 ->
  itoa buf i wid = Done (append buf (itoa_text i wid)).
Proof.
  intros Hw. unfold itoa. rewrite itoa_digits_text by exact Hw. reflexivity.
Qed.

(** C9: for every non-negative [int] [i] and each width the header formatter
    uses (-1, 2, 4, 6), [itoa] returns (the loop ends and no index leaves the
    20-byte scratch array, which would be a panic) and appends exactly the
    decimal digits of [i], most significant first, zero-padded on the left
    to [max(width, number of digits of i)] bytes. *)
Theorem itoa_renders_decimal (buf : Slice) (i wid : Z) :
  0 <= i < 2 ^ 63 ->
  wid = -1 \/ wid = 2 \/ wid = 4 \/ wid = 6 ->
  exists ds,
    itoa buf i wid = Done (append buf ds) /\
    data (append buf ds) = data buf ++ ds /\
    Forall is_digit ds /\
    decimal_value ds = i /\
    Z.of_nat (length ds) = Z.max wid (ndigits i).
Proof.
  intros Hi Hw.
  assert (Hwid : - 2 ^ 63 + 19 < wid <= 20) by lia.
  destruct (itoa_digits_spec i wid Hwid) as (ds & Hds & Hprop).
  destruct (Hprop Hi) as (Hd & Hv & Hl).
  exists ds. unfold itoa. rewrite Hds. cbn [bind].
  repeat split; assumption.
Qed.

(** ** Short file names *)

Lemma after_last_slash_snoc l x :
  after_last_slash (l ++ [x]) =
  if x =? SLASH then Some []
  else option_map (fun t => t ++ [x]) (after_last_slash l).
Proof.
  induction l as [ | c l IH ]; cbn [app after_last_slash].
  - destruct (x =? SLASH); reflexivity.
  - rewrite IH. destruct (x =? SLASH); [ reflexivity | ].
    destruct (after_last_slash l); cbn [option_map]; [ reflexivity | ].
    destruct (c =? SLASH); reflexivity.
Qed.

Lemma firstn_succ_nth (r : bytes) j :
  (j < length r)%nat -> firstn (S j) r = firstn j r ++ [nth j r 0].
Proof.
  revert j. induction r as [ | c r IH ]; intros j Hj; cbn [length] in Hj.
  - lia.
  - destruct j as [ | j ]; [ reflexivity | ].
    cbn [firstn nth app]. rewrite <- IH by lia. reflexivity.
Qed.

Lemma skipn_nth_cons (r : bytes) j :
  (j < length r)%nat -> skipn j r = nth j r 0 :: skipn (S j) r.
Proof.
  revert j. induction r as [ | c r IH ]; intros j Hj; cbn [length] in Hj.
  - lia.
  - destruct j as [ | j ]; [ reflexivity | ].
    cbn [skipn nth]. apply IH. lia.
Qed.

Lemma short_scan_spec c r i :
  (i <= length r)%nat ->
  short_scan (c :: r) i =
  match after_last_slash (firstn i r) with
  | Some t => t ++ skipn i r
  | None => c :: r
  end.
Proof.
  induction i as [ | j IH ]; intros Hi.
  - reflexivity.
  - cbn [short_scan]. change (nth (S j) (c :: r) 0) with (nth j r 0).
    replace (S j + 1)%nat with (S (S j)) by lia.
    change (skipn (S (S j)) (c :: r)) with (skipn (S j) r).
    rewrite firstn_succ_nth, after_last_slash_snoc by lia.
    destruct (nth j r 0 =? SLASH); [ reflexivity | ].
    rewrite IH by lia.
    destruct (after_last_slash (firstn j r)); cbn [option_map]; [ | reflexivity ].
    rewrite <- app_assoc, (skipn_nth_cons r j) by lia. reflexivity.
Qed.

(** The backward scan of the source computes [base_name]. *)
Lemma shortfile_base_name file : shortfile file = base_name file.
Proof.
  destruct file as [ | c r ]; [ reflexivity | ].
  unfold shortfile, base_name. cbn [length].
  replace (S (length r) - 1)%nat with (length r) by lia.
  rewrite short_scan_spec by lia.
  rewrite firstn_all, skipn_all.
  destruct (after_last_slash r); [ apply app_nil_r | reflexivity ].
Qed.

Lemma after_last_slash_none r : ~ In SLASH r -> after_last_slash r = None.
Proof.
  induction r as [ | c r IH ]; intros Hr; [ reflexivity | ].
  cbn [after_last_slash]. rewrite IH by (intros H; apply Hr; right; exact H).
  destruct (c =? SLASH) eqn:E; [ | reflexivity ].
  apply Z.eqb_eq in E. exfalso. apply Hr. left. exact E.
Qed.

Lemma after_last_slash_app pre suf :
  ~ In SLASH suf -> after_last_slash (pre ++ SLASH :: suf) = Some suf.
Proof.
  intros Hs. induction pre as [ | c pre IH ]; cbn [app after_last_slash].
  - rewrite after_last_slash_none by exact Hs. reflexivity.
  - rewrite IH. reflexivity.
Qed.

Lemma short_scan_cut file i :
  short_scan file i = file \/
  exists j, (0 < j <= i)%nat /\ nth j file 0 = SLASH /\
            short_scan file i = skipn (j + 1) file.
Proof.
  induction i as [ | i IH ]; [ left; reflexivity | ].
  cbn [short_scan]. destruct (nth (S i) file 0 =? SLASH) eqn:E.
  - right. exists (S i). apply Z.eqb_eq in E. repeat split; try lia; assumption.
  - destruct IH as [ IH | (j & Hj & Hn & Hs) ]; [ left; exact IH | right ].
    exists j. repeat split; try lia; assumption.
Qed.

(** ** formatHeader, as text *)

Ltac run_itoa :=
  repeat (rewrite itoa_text_ok by lia; cbn [bind]).

Ltac text_eq :=
  rewrite ?data_append; rewrite <- ?app_assoc; reflexivity.

Lemma formatDate_text buf t :
  exists buf', formatDate buf t = Done buf' /\
               data buf' = data buf ++ date_text t.
Proof.
  unfold formatDate, Date, date_text. run_itoa.
  eexists. split; [ reflexivity | text_eq ].
Qed.

Lemma formatClock_text buf t flag :
  exists buf', formatClock buf t flag = Done buf' /\
               data buf' = data buf ++ clock_text t flag.
Proof.
  unfold formatClock, Clock, Nanosecond, clock_text. run_itoa.
  destruct (has flag Lmicroseconds); run_itoa;
    (eexists; split; [ reflexivity | text_eq ]).
Qed.

Lemma formatLocation_text buf flag file line :
  exists buf', formatLocation buf flag file line = Done buf' /\
               data buf' = data buf ++ location_text flag file line.
Proof.
  unfold formatLocation, location_text. run_itoa.
  eexists. split; [ reflexivity | text_eq ].
Qed.

Lemma formatStamp_text buf t flag :
  exists buf', formatStamp buf t flag = Done buf' /\
               data buf' = data buf ++ stamp_text t flag.
Proof.
  unfold formatStamp, stamp_text.
  destruct (has flag (Z.lor (Z.lor Ldate Ltime) Lmicroseconds)).
  - cbv zeta. set (t0 := if has flag LUTC then UTC t else t).
    assert (Hd : exists b',
      (if has flag Ldate then formatDate buf t0 else Done buf) = Done b' /\
      data b' = data buf ++ (if has flag Ldate then date_text t0 else [])).
    { destruct (has flag Ldate).
      - apply formatDate_text.
      - exists buf. split; [ reflexivity | symmetry; apply app_nil_r ]. }
    destruct Hd as (b' & -> & Hb'). cbn [bind].
    destruct (has flag (Z.lor Ltime Lmicroseconds)).
    + destruct (formatClock_text b' t0 flag) as (b2 & -> & Hb2).
      exists b2. split; [ reflexivity | ].
      rewrite Hb2, Hb', <- app_assoc. reflexivity.
    + exists b'. split; [ reflexivity | ].
      rewrite Hb', app_nil_r. reflexivity.
  - exists buf. split; [ reflexivity | symmetry; apply app_nil_r ].
Qed.

Lemma formatHeader_text buf t prefix flag levelStr file line :
  exists buf',
    formatHeader buf t prefix flag levelStr file line = Done buf' /\
    data buf' = data buf ++ header_text t prefix flag levelStr file line.
Proof.
  unfold formatHeader, header_text.
  destruct (formatStamp_text (append (append buf prefix) levelStr) t flag)
    as (b1 & -> & Hb1).
  cbn [bind]. rewrite !data_append in Hb1.
  destruct (has flag (Z.lor Lshortfile Llongfile)).
  - destruct (formatLocation_text b1 flag file line) as (b2 & -> & Hb2).
    exists b2. split; [ reflexivity | ].
    rewrite Hb2, Hb1. rewrite <- !app_assoc. reflexivity.
  - exists b1. split; [ reflexivity | ].
    rewrite Hb1, app_nil_r. rewrite <- !app_assoc. reflexivity.
Qed.

Lemma itoa_text_unpadded line :
  0 <= line < 2 ^ 63 ->
  Forall is_digit (itoa_text line (-1)) /\
  decimal_value (itoa_text line (-1)) = line /\
  Z.of_nat (length (itoa_text line (-1))) = ndigits line.
Proof.
  intros Hl.
  destruct (itoa_digits_spec line (-1)) as (ds & Hds & Hprop); [ lia | ].
  unfold itoa_text. rewrite Hds.
  destruct (Hprop Hl) as (Hd & Hv & Hlen).
  repeat split; try assumption.
  destruct (ndigits_spec line Hl) as (H1 & _). lia.
Qed.

(** ** Caller location (C6, C10) *)

(** C6 (amended): when a caller location is rendered, the header ends with
    the path, [':'], the unpadded decimal line number and [": "]; the path
    is the full path unless the short-file flag is set, and with the
    short-file flag it is the text after the last separator that is not the
    path's first byte (the whole path when there is none). *)
Theorem location_rendering (buf : Slice) (t : Time) (prefix : bytes)
    (flag : Z) (levelStr file : bytes) (line : Z) :
  has flag (Z.lor Lshortfile Llongfile) = true ->
  0 <= line < 2 ^ 63 ->
  exists buf' ds,
    formatHeader buf t prefix flag levelStr file line = Done buf' /\
    data buf' =
      data buf ++ prefix ++ levelStr ++ stamp_text t flag ++
      (if has flag Lshortfile then base_name file else file) ++
      str ":" ++ ds ++ str ": " /\
    Forall is_digit ds /\ decimal_value ds = line /\
    Z.of_nat (length ds) = ndigits line.
Proof.
  intros Hf Hl.
  destruct (formatHeader_text buf t prefix flag levelStr file line)
    as (buf' & Hrun & Hdata).
  destruct (itoa_text_unpadded line Hl) as (Hd & Hv & Hn).
  exists buf', (itoa_text line (-1)).
  split; [ exact Hrun | ]. split; [ | repeat split; assumption ].
  rewrite Hdata. unfold header_text, location_text.
  rewrite Hf, shortfile_base_name. reflexivity.
Qed.

(** C10: with the short-file flag set, a path whose only separator is its
    first byte is rendered unchanged; whenever the short form differs from
    the path, it is the text after a separator at a position [i > 0]. *)
Theorem leading_separator_is_kept (buf : Slice) (flag : Z) (rest : bytes)
    (line : Z) :
  has flag Lshortfile = true ->
  ~ In SLASH rest ->
  shortfile (SLASH :: rest) = SLASH :: rest /\
  (exists buf',
     formatLocation buf flag (SLASH :: rest) line = Done buf' /\
     data buf' =
       data buf ++ (SLASH :: rest) ++ str ":" ++ itoa_text line (-1) ++ str ": ") /\
  (forall file, shortfile file <> file ->
     exists i, (0 < i < length file)%nat /\ nth i file 0 = SLASH /\
               shortfile file = skipn (i + 1) file).
Proof.
  intros Hs Hr.
  assert (Hkeep : shortfile (SLASH :: rest) = SLASH :: rest).
  { rewrite shortfile_base_name. unfold base_name.
    rewrite after_last_slash_none by exact Hr. reflexivity. }
  split; [ exact Hkeep | ]. split.
  - destruct (formatLocation_text buf flag (SLASH :: rest) line)
      as (buf' & Hrun & Hdata).
    exists buf'. split; [ exact Hrun | ].
    rewrite Hdata. unfold location_text. rewrite Hs, Hkeep.
    reflexivity.
  - intros file Hne. unfold shortfile in *.
    destruct (short_scan_cut file (length file - 1))
      as [ Hsame | (j & Hj & Hn & Hcut) ]; [ contradiction | ].
    exists j. repeat split; try assumption; lia.
Qed.

(** ** The write path *)

Lemma writes_of_app a b : writes_of (a ++ b) = writes_of a ++ writes_of b.
Proof. unfold writes_of. apply flat_map_app. Qed.

Lemma locate_spec e w flag pc calldepth :
  exists extra,
    locate e w flag pc calldepth =
      (fst (where_called e flag pc calldepth),
       snd (where_called e flag pc calldepth),
       mkWorld (pool w) (events w ++ extra)) /\
    writes_of extra = [].
Proof.
  unfold where_called, locate.
  destruct (has flag (Z.lor Lshortfile Llongfile)).
  - destruct (pc =? 0).
    + destruct (Caller e calldepth) as [[file line] ok].
      exists [EvCaller calldepth]. destruct ok; split; reflexivity.
    + destruct (CallersFrames e pc) as [file line].
      exists [EvFrames pc]. split; reflexivity.
  - exists []. split; [ | reflexivity ].
    destruct w as [pl evs]. cbn [fst snd pool events].
    rewrite app_nil_r. reflexivity.
Qed.

Lemma getBuffer_spec e w :
  exists b0 pl,
    getBuffer e w = (b0, mkWorld pl (events w ++ [EvGet])) /\
    data b0 = [] /\ capacity b0 = capacity (fst (pool_Get e w)).
Proof.
  unfold getBuffer.
  assert (H : exists pl, snd (pool_Get e w) = mkWorld pl (events w ++ [EvGet])).
  { unfold pool_Get. destruct (pool_pick e (pool w)) as [ k | ].
    - destruct (nth_error (pool w) k); eexists; reflexivity.
    - eexists; reflexivity. }
  destruct H as (pl & Hpl).
  destruct (pool_Get e w) as [p w1]. cbn [fst snd] in *. subst w1.
  eexists _, pl. repeat split.
Qed.

Lemma ensure_newline_Appendln buf v :
  ensure_newline (Appendln buf v) = Appendln buf v.
Proof.
  unfold ensure_newline, Appendln, len. rewrite data_append.
  rewrite app_assoc, last_last, length_app. cbn [length].
  replace (Z.of_nat (length (data buf ++ join_space v) + 1) =? 0) with false
    by (symmetry; apply Z.eqb_neq; lia).
  reflexivity.
Qed.

(** An un-gated call with a writer in place: one [Write], of the rendered
    line, between acquiring the buffer and releasing it; the result is the
    writer's. *)
Lemma output_Appendln e l w level pc calldepth v :
  gated l level = false -> out l <> NilWriter ->
  exists w' pre s,
    output e l w level pc calldepth (fun b => Appendln b v) =
      Done (match out l with
            | Sink write =>
                snd (write (events w ++ pre) (line_text e l level pc calldepth v))
            | _ => None
            end, w') /\
    events w' =
      events w ++ pre ++ [EvWrite (line_text e l level pc calldepth v); EvPut s] /\
    writes_of pre = [].
Proof.
  intros Hg Ho. unfold gated in Hg. apply orb_false_elim in Hg.
  destruct Hg as (Hlvl & Hdis).
  unfold output. rewrite Hlvl, Hdis.
  destruct (locate_spec e (emit EvNow w) (Flags l) pc calldepth)
    as (extra & Hloc & Hextra).
  rewrite Hloc. cbn [emit pool events].
  set (w1 := mkWorld (pool w) ((events w ++ [EvNow]) ++ extra)).
  destruct (getBuffer_spec e w1) as (b0 & pl & Hget & Hb0 & _).
  rewrite Hget. subst w1. cbn [events].
  destruct (formatHeader_text b0 (Now e) (Prefix l) (Flags l) (levelTag level)
              (fst (where_called e (Flags l) pc calldepth))
              (snd (where_called e (Flags l) pc calldepth)))
    as (buf & Hrun & Hdata).
  rewrite Hrun. cbn [bind]. rewrite ensure_newline_Appendln.
  assert (Hline : data (Appendln buf v) = line_text e l level pc calldepth v).
  { unfold Appendln, line_text. rewrite data_append, Hdata, Hb0.
    destruct (where_called e (Flags l) pc calldepth) as [file line].
    cbn [fst snd app]. reflexivity. }
  rewrite Hline.
  set (pre := [EvNow] ++ extra ++ [EvGet]).
  assert (Hev : ((events w ++ [EvNow]) ++ extra) ++ [EvGet] = events w ++ pre)
    by (subst pre; rewrite <- !app_assoc; reflexivity).
  rewrite Hev.
  assert (Hpre : writes_of pre = []).
  { subst pre. rewrite !writes_of_app, Hextra. reflexivity. }
  destruct (out l) as [ | | write ] eqn:Hout; [ contradiction | | ];
    cbn [sink_Write bind emit pool events putBuffer pool_Put snd];
    eexists _, pre, _; (split; [ reflexivity | ]);
    (split; [ | exact Hpre ]);
    unfold putBuffer, pool_Put, emit; cbn [events pool];
    rewrite <- !app_assoc; reflexivity.
Qed.

Lemma output_gated e l w level pc calldepth appendOutput :
  gated l level = true ->
  output e l w level pc calldepth appendOutput = Done (None, w).
Proof.
  unfold gated, output. intros Hg.
  destruct (level <? minLevel l); [ reflexivity | ].
  cbn [orb] in Hg. rewrite Hg. reflexivity.
Qed.

(** ** Trailing newlines *)

Lemma leading_newlines_stop x c y :
  c <> NL -> leading_newlines (x ++ c :: y) = leading_newlines x.
Proof.
  intros Hc. induction x as [ | b x IH ]; cbn [app leading_newlines].
  - destruct (c =? NL) eqn:E; [ apply Z.eqb_eq in E; contradiction | reflexivity ].
  - rewrite IH. reflexivity.
Qed.

Lemma trailing_newlines_snoc a :
  trailing_newlines (a ++ [NL]) = S (trailing_newlines a).
Proof.
  unfold trailing_newlines. rewrite rev_app_distr. reflexivity.
Qed.

Lemma trailing_newlines_after h c j :
  c <> NL -> trailing_newlines ((h ++ [c]) ++ j) = trailing_newlines j.
Proof.
  intros Hc. unfold trailing_newlines.
  rewrite !rev_app_distr. cbn [rev app].
  apply leading_newlines_stop. exact Hc.
Qed.

Lemma ends_with_space_app a b : ends_with_space b -> ends_with_space (a ++ b).
Proof.
  intros (b' & ->). exists (a ++ b'). apply app_assoc.
Qed.

Lemma levelTag_ends_with_space level : ends_with_space (levelTag level).
Proof.
  unfold levelTag.
  destruct (level =? DEBUG); [ exists (str "[DEBUG]"); reflexivity | ].
  destruct (level =? INFO); [ exists (str "[INFO] "); reflexivity | ].
  destruct (level =? ERROR); [ exists (str "[ERROR]"); reflexivity | ].
  exists (str "[?????]"); reflexivity.
Qed.

Lemma header_text_ends_with_space t prefix flag level file line :
  ends_with_space (header_text t prefix flag (levelTag level) file line).
Proof.
  unfold header_text. apply ends_with_space_app.
  destruct (has flag (Z.lor Lshortfile Llongfile)).
  - do 2 apply ends_with_space_app. unfold location_text.
    rewrite !app_assoc. eexists. change (str ": ") with ([58] ++ [32]).
    rewrite app_assoc. reflexivity.
  - rewrite app_nil_r. unfold stamp_text.
    destruct (has flag (Z.lor (Z.lor Ldate Ltime) Lmicroseconds));
      [ | rewrite app_nil_r; apply levelTag_ends_with_space ].
    cbv zeta.
    destruct (has flag (Z.lor Ltime Lmicroseconds)).
    + do 2 apply ends_with_space_app. unfold clock_text.
      rewrite !app_assoc. eexists. reflexivity.
    + rewrite app_nil_r.
      destruct (has flag Ldate).
      * apply ends_with_space_app.
        unfold date_text. rewrite !app_assoc. eexists. reflexivity.
      * rewrite app_nil_r. apply levelTag_ends_with_space.
Qed.

Lemma line_text_newlines e l level pc calldepth v :
  trailing_newlines (line_text e l level pc calldepth v) =
  S (trailing_newlines (join_space v)).
Proof.
  unfold line_text.
  destruct (where_called e (Flags l) pc calldepth) as [file line].
  destruct (header_text_ends_with_space (Now e) (Prefix l) (Flags l) level file line)
    as (h & ->).
  rewrite app_assoc, trailing_newlines_snoc.
  rewrite trailing_newlines_after by (unfold NL; lia).
  reflexivity.
Qed.

(** An emitter that passes the gates writes [line_text], once. *)
Lemma emitter_writes_line level e l w v :
  gated l level = false -> out l <> NilWriter ->
  exists w',
    emitter level e l w v = Done (tt, w') /\
    writes_of (events w') = writes_of (events w) ++ [line_text e l level 0 2 v].
Proof.
  intros Hg Ho. unfold emitter.
  destruct (output_Appendln e l w level 0 2 v Hg Ho) as (w' & pre & s & Hrun & Hev & Hpre).
  rewrite Hrun. cbn [bind snd].
  exists w'. split; [ reflexivity | ].
  rewrite Hev, !writes_of_app, Hpre. reflexivity.
Qed.

(** ** The claims about the write path *)

(** C1 (amended): the write path [output] returns the sink's own answer, so
    its error is non-nil exactly when the call passed both gates and the
    sink's [Write] failed; an un-gated call makes one [Write] and no more
    (no retry), a gated call makes none, and what is written does not depend
    on what earlier calls did.  The emitters Debug, Info and Error perform
    the same call but have no result: the error is dropped. *)
Theorem write_error_surfaces_from_output (level : Z) (e : Env) (l : Logger)
    (w : World) (v : list bytes) (write : list Event -> bytes -> Z * option error) :
  out l = Sink write ->
  exists err w',
    output e l w level 0 2 (fun b => Appendln b v) = Done (err, w') /\
    emitter level e l w v = Done (tt, w') /\
    if gated l level then err = None /\ w' = w
    else exists pre s,
      events w' = events w ++ pre ++ [EvWrite (line_text e l level 0 2 v); EvPut s] /\
      writes_of pre = [] /\
      err = snd (write (events w ++ pre) (line_text e l level 0 2 v)).
Proof.
  intros Ho. unfold emitter.
  destruct (gated l level) eqn:Hg.
  - rewrite output_gated by exact Hg.
    exists None, w. repeat split.
  - destruct (output_Appendln e l w level 0 2 v Hg) as (w' & pre & s & Hrun & Hev & Hpre).
    { rewrite Ho. discriminate. }
    rewrite Ho in Hrun. rewrite Hrun.
    eexists _, w'. split; [ reflexivity | ]. split; [ reflexivity | ].
    exists pre, s. repeat split; assumption.
Qed.

(** C2 (amended): a call of Debug, Info or Error that passes the gates
    writes one line to the sink; the line ends with ['\n'], and it ends with
    exactly one more ['\n'] than the space-joined operand texts do: exactly
    one when that text does not itself end in a newline. *)
Theorem emitted_line_newlines (level : Z) (e : Env) (l : Logger) (w : World)
    (v : list bytes) :
  gated l level = false ->
  out l <> NilWriter ->
  exists w' p,
    emitter level e l w v = Done (tt, w') /\
    writes_of (events w') = writes_of (events w) ++ [p] /\
    p = line_text e l level 0 2 v /\
    last p 0 = NL /\
    trailing_newlines p = S (trailing_newlines (join_space v)).
Proof.
  intros Hg Ho.
  destruct (emitter_writes_line level e l w v Hg Ho) as (w' & Hrun & Hw).
  exists w', (line_text e l level 0 2 v).
  split; [ exact Hrun | ]. split; [ exact Hw | ].
  split; [ reflexivity | split ].
  - unfold line_text. destruct (where_called e (Flags l) 0 2) as [file line].
    rewrite !app_assoc. apply last_last.
  - apply line_text_newlines.
Qed.

(** C3: a logger made by [New(sink, "APP ", Ldate|Ltime, INFO)], asked to
    [Info("started")] while the clock reads 2024/01/02 03:04:05, hands the
    sink exactly ["APP [INFO]  2024/01/02 03:04:05 started\n"]. *)
Theorem end_to_end_example (write : list Event -> bytes -> Z * option error)
    (nsec : Z) (utc : Civil) (caller : Z -> bytes * Z * bool)
    (frames : Z -> bytes * Z) (pick : list Slice -> option nat) (w : World) :
  let e := mkEnv (mkTime (mkCivil 2024 1 2 3 4 5 nsec) utc) caller frames pick in
  let l := New (Sink write) (str "APP ") (Z.lor Ldate Ltime) INFO in
  exists w',
    Info e l w [str "started"] = Done (tt, w') /\
    writes_of (events w') =
      writes_of (events w) ++
      [str "APP [INFO]  2024/01/02 03:04:05 started" ++ [NL]].
Proof.
  intros e l.
  assert (Hline : line_text e l INFO 0 2 [str "started"] =
                  str "APP [INFO]  2024/01/02 03:04:05 started" ++ [NL])
    by (vm_compute; reflexivity).
  destruct (emitter_writes_line INFO e l w [str "started"]) as (w' & Hrun & Hw).
  - reflexivity.
  - discriminate.
  - exists w'. split; [ exact Hrun | ].
    rewrite Hw, Hline. reflexivity.
Qed.

(** C4: a call whose level is below the logger's minimum, or made while the
    discard hint is set, returns nil and leaves the world as it was: no
    clock or caller lookup, no buffer taken from the pool, nothing
    formatted into one, nothing written. *)
Theorem gated_call_does_nothing (e : Env) (l : Logger) (w : World)
    (level pc calldepth : Z) (appendOutput : Slice -> Slice) :
  level < minLevel l \/ isDiscard l = true ->
  output e l w level pc calldepth appendOutput = Done (None, w).
Proof.
  intros H. apply output_gated. unfold gated.
  destruct H as [ H | H ].
  - apply Z.ltb_lt in H. rewrite H. reflexivity.
  - rewrite H. apply orb_true_r.
Qed.

(** ** Configuration (C5) *)

(** C5: each setter followed by its getter gives the value back, for every
    flags value that fits the 32-bit field, every prefix and every [Level];
    setters of the other fields in between do not disturb it. *)
Theorem setters_round_trip (l : Logger) (x : Z) (s : bytes) (v : Z) :
  int32_range x ->
  uint8_range v ->
  Flags (SetFlags x l) = x /\
  Prefix (SetPrefix s l) = s /\
  Level (SetLevel v l) = v /\
  Flags (SetLevel v (SetPrefix s (SetFlags x l))) = x /\
  Prefix (SetLevel v (SetFlags x (SetPrefix s l))) = s /\
  Level (SetPrefix s (SetFlags x (SetLevel v l))) = v.
Proof.
  intros Hx Hv. unfold Flags, Prefix, Level, SetFlags, SetPrefix, SetLevel.
  cbn [flag prefix minLevel].
  rewrite wrap32_id by exact Hx. rewrite to_byte_id by exact Hv.
  repeat split.
Qed.

(** ** Buffer pool (C7) *)

(** C7: [getBuffer] hands out the pooled buffer with length zero and its
    capacity kept; [putBuffer] puts back the nil slice when the capacity is
    above 65536 (64 KiB) and the buffer itself, contents and capacity,
    otherwise. *)
Theorem buffer_pool_contract (e : Env) (w : World) (p : Slice) :
  data (fst (getBuffer e w)) = [] /\
  len (fst (getBuffer e w)) = 0 /\
  capacity (fst (getBuffer e w)) = capacity (fst (pool_Get e w)) /\
  pool (putBuffer p w) =
    (if 65536 <? capacity p then mkSlice [] 0 else p) :: pool w /\
  events (putBuffer p w) =
    events w ++ [EvPut (if 65536 <? capacity p then mkSlice [] 0 else p)].
Proof.
  destruct (getBuffer_spec e w) as (b0 & pl & Hget & Hdata & Hcap).
  rewrite Hget. cbn [fst]. unfold len. rewrite Hdata.
  repeat split; try assumption.
  - unfold putBuffer, pool_Put. cbn [pool].
    rewrite Z.gtb_ltb. reflexivity.
  - unfold putBuffer, pool_Put. cbn [events].
    rewrite Z.gtb_ltb. reflexivity.
Qed.

(** ** Level tags (C8) *)

(** C8: whatever level value reaches the write path, the call goes through
    and the line starts with the prefix and one of the four 8-byte tags:
    ["[DEBUG] "] for DEBUG, ["[INFO]  "] for INFO, ["[ERROR] "] for ERROR,
    and ["[?????] "] for every other value. *)
Theorem level_tag_total (level : Z) (e : Env) (l : Logger) (w : World)
    (pc calldepth : Z) (v : list bytes) :
  gated l level = false ->
  out l <> NilWriter ->
  exists err w' rest,
    output e l w level pc calldepth (fun b => Appendln b v) = Done (err, w') /\
    writes_of (events w') =
      writes_of (events w) ++ [Prefix l ++ levelTag level ++ rest] /\
    length (levelTag level) = 8%nat /\
    In (levelTag level)
       [str "[DEBUG] "; str "[INFO]  "; str "[ERROR] "; str "[?????] "] /\
    (level = DEBUG -> levelTag level = str "[DEBUG] ") /\
    (level = INFO -> levelTag level = str "[INFO]  ") /\
    (level = ERROR -> levelTag level = str "[ERROR] ") /\
    (level <> DEBUG -> level <> INFO -> level <> ERROR ->
     levelTag level = str "[?????] ").
Proof.
  intros Hg Ho.
  destruct (output_Appendln e l w level pc calldepth v Hg Ho)
    as (w' & pre & s & Hrun & Hev & Hpre).
  eexists _, w',
    (stamp_text (Now e) (Flags l) ++
     (if has (Flags l) (Z.lor Lshortfile Llongfile)
      then location_text (Flags l)
             (fst (where_called e (Flags l) pc calldepth))
             (snd (where_called e (Flags l) pc calldepth))
      else []) ++
     join_space v ++ [NL]).
  split; [ exact Hrun | ].
  split; [ | split; [ | split; [ | split; [ | split; [ | split ] ] ] ] ];
    try (intros ->; reflexivity).
  - rewrite Hev, !writes_of_app, Hpre. cbn [app writes_of flat_map].
    unfold line_text, header_text.
    destruct (where_called e (Flags l) pc calldepth) as [file line].
    cbn [fst snd]. rewrite <- !app_assoc. reflexivity.
  - unfold levelTag.
    destruct (level =? DEBUG); [ reflexivity | ].
    destruct (level =? INFO); [ reflexivity | ].
    destruct (level =? ERROR); reflexivity.
  - unfold levelTag.
    destruct (level =? DEBUG); [ left; reflexivity | ].
    destruct (level =? INFO); [ right; left; reflexivity | ].
    destruct (level =? ERROR); [ right; right; left; reflexivity | ].
    right; right; right; left; reflexivity.
  - intros H0 H1 H2. unfold levelTag.
    apply Z.eqb_neq in H0, H1, H2. rewrite H0, H1, H2. reflexivity.
Qed.

(** * Further properties of the code *)

(** ** itoa outside the widths the formatter uses *)

Lemma array_set_below b v : array_set b (-1) v = Panic.
Proof. reflexivity. Qed.

(** With a width of more than the free slots plus one, the loop either
    leaves the array (a panic) or stops with [bp = -1]. *)
Lemma itoa_loop_overrun (n : nat) : forall b i wid,
  length b = 20%nat -> (n < 20)%nat ->
  Z.of_nat n + 2 <= wid < 2 ^ 63 ->
  match itoa_loop b (Z.of_nat n) i wid with
  | Done (_, bp', _) => bp' = -1
  | Panic => True
  end.
Proof.
  induction n as [ | n IH ]; intros b i wid Hb Hn Hw;
    rewrite itoa_loop_eq;
    (replace ((10 <=? i) || (1 <? wid)) with true
      by (symmetry; apply orb_true_iff; right; apply Z.ltb_lt; lia)).
  - destruct (array_set_ok b (Z.of_nat 0) (to_byte (ZERO + i - Z.quot i 10 * 10)))
      as (b1 & Hset & Hlen & _); [ lia | ].
    rewrite Hset. cbn [bind]. change (Z.of_nat 0 - 1) with (-1).
    rewrite itoa_loop_eq.
    destruct ((10 <=? Z.quot i 10) || (1 <? wrap64 (wid - 1))).
    + rewrite array_set_below. exact I.
    + reflexivity.
  - destruct (array_set_ok b (Z.of_nat (S n)) (to_byte (ZERO + i - Z.quot i 10 * 10)))
      as (b1 & Hset & Hlen & _); [ lia | ].
    rewrite Hset. cbn [bind].
    replace (Z.of_nat (S n) - 1) with (Z.of_nat n) by lia.
    rewrite wrap64_id by (unfold int_range; lia).
    apply IH; [ congruence | lia | lia ].
Qed.

Lemma itoa_digits_too_wide i wid :
  20 < wid < 2 ^ 63 -> itoa_digits i wid = Panic.
Proof.
  intros Hw. unfold itoa_digits.
  rewrite (wrap64_id wid) by (unfold int_range; lia).
  rewrite repeat_length. change (Z.of_nat 20 - 1) with (Z.of_nat 19).
  pose proof (itoa_loop_overrun 19 (repeat 0 20) (wrap64 i) wid
                (repeat_length _ _) ltac:(lia) ltac:(simpl; lia)) as H.
  destruct (itoa_loop (repeat 0 20) (Z.of_nat 19) (wrap64 i) wid)
    as [ [[b' bp'] i'] | ]; [ | reflexivity ].
  subst bp'. cbn [bind]. rewrite array_set_below. reflexivity.
Qed.

(** X1: for every width [wid] with [-2^63 + 19 < wid < 2^63] (every [int]
    but the twenty lowest, where [wid--] can wrap around), [itoa] panics
    (an index leaves the 20-byte scratch array) exactly when [wid] is above
    20, whatever the number; up to 20 it returns and only appends. *)
Theorem itoa_panics_iff_too_wide (buf : Slice) (i wid : Z) :
  - 2 ^ 63 + 19 < wid < 2 ^ 63 ->
  (itoa buf i wid = Panic <-> 20 < wid) /\
  (wid <= 20 -> exists ds, itoa buf i wid = Done (append buf ds)).
Proof.
  intros Hw.
  assert (Hok : wid <= 20 -> exists ds, itoa buf i wid = Done (append buf ds)).
  { intros Hle. exists (itoa_text i wid). apply itoa_text_ok. lia. }
  split; [ split | exact Hok ].
  - intros Hp. destruct (Z.le_gt_cases wid 20) as [ Hle | Hgt ]; [ | lia ].
    destruct (Hok Hle) as (ds & Hds). congruence.
  - intros Hgt. unfold itoa. rewrite itoa_digits_too_wide by lia. reflexivity.
Qed.

(** X2: without padding, a number below 10 is rendered as the single byte
    ['0' + i] reduced modulo 256; in particular a negative number gets
    neither a sign nor its digits. *)
Theorem itoa_below_ten_is_one_byte (buf : Slice) (i wid : Z) :
  - 2 ^ 63 <= i < 10 ->
  - 2 ^ 63 <= wid <= 1 ->
  itoa buf i wid = Done (append buf [to_byte (ZERO + i)]).
Proof.
  intros Hi Hw. unfold itoa, itoa_digits.
  rewrite (wrap64_id i), (wrap64_id wid) by (unfold int_range; lia).
  rewrite itoa_loop_eq.
  replace ((10 <=? i) || (1 <? wid)) with false
    by (symmetry; apply orb_false_intro; [ apply Z.leb_gt | apply Z.ltb_ge ]; lia).
  cbn [bind]. reflexivity.
Qed.

(** ** Flags and the time stamp *)

Lemma has_lor flag a b : has flag (Z.lor a b) = has flag a || has flag b.
Proof.
  unfold has. rewrite Z.land_lor_distr_r.
  destruct (Z.land flag a =? 0) eqn:Ea; destruct (Z.land flag b =? 0) eqn:Eb;
    cbn [negb orb].
  - apply Z.eqb_eq in Ea, Eb. rewrite Ea, Eb. reflexivity.
  - apply Z.eqb_neq in Eb. apply negb_true_iff, Z.eqb_neq.
    intros H. apply Z.lor_eq_0_iff in H. tauto.
  - apply Z.eqb_neq in Ea. apply negb_true_iff, Z.eqb_neq.
    intros H. apply Z.lor_eq_0_iff in H. tauto.
  - apply Z.eqb_neq in Ea. apply negb_true_iff, Z.eqb_neq.
    intros H. apply Z.lor_eq_0_iff in H. tauto.
Qed.

Lemma ndigits_le i wid :
  0 <= i < 2 ^ 63 -> 1 <= wid -> i < 10 ^ wid -> ndigits i <= wid.
Proof.
  intros Hi Hw Hlt.
  destruct (ndigits_spec i Hi) as (H1 & _ & [ -> | Hlow ]); [ exact Hw | ].
  destruct (Z.le_gt_cases (ndigits i) wid) as [ H | H ]; [ exact H | exfalso ].
  assert (10 ^ wid <= 10 ^ (ndigits i - 1)) by (apply Z.pow_le_mono_r; lia).
  lia.
Qed.

(** Within its width a number is rendered in exactly that many digits. *)
Lemma itoa_text_padded i wid :
  1 <= wid <= 18 -> 0 <= i < 10 ^ wid ->
  length (itoa_text i wid) = Z.to_nat wid /\
  Forall is_digit (itoa_text i wid) /\
  decimal_value (itoa_text i wid) = i.
Proof.
  intros Hw Hi.
  assert (H18 : 10 ^ wid <= 10 ^ 18) by (apply Z.pow_le_mono_r; lia).
  assert (Hr : 0 <= i < 2 ^ 63) by (change (10 ^ 18) with 1000000000000000000 in H18; lia).
  destruct (itoa_digits_spec i wid) as (ds & Hds & Hprop); [ lia | ].
  unfold itoa_text. rewrite Hds.
  destruct (Hprop Hr) as (Hd & Hv & Hl).
  pose proof (ndigits_le i wid Hr ltac:(lia) ltac:(lia)).
  repeat split; try assumption. lia.
Qed.

Lemma date_text_length t :
  calendar_ok (in_loc t) -> length (date_text t) = 11%nat.
Proof.
  intros (Hy & Hm & Hd & _). unfold date_text.
  destruct (itoa_text_padded (c_year (in_loc t)) 4) as (L1 & _); [ lia | simpl; lia | ].
  destruct (itoa_text_padded (c_month (in_loc t)) 2) as (L2 & _); [ lia | simpl; lia | ].
  destruct (itoa_text_padded (c_day (in_loc t)) 2) as (L3 & _); [ lia | simpl; lia | ].
  rewrite !length_app, L1, L2, L3. reflexivity.
Qed.

Lemma clock_text_length t flag :
  calendar_ok (in_loc t) ->
  length (clock_text t flag) = if has flag Lmicroseconds then 16%nat else 9%nat.
Proof.
  intros (_ & _ & _ & Hh & Hm & Hs & Hn). unfold clock_text.
  destruct (itoa_text_padded (c_hour (in_loc t)) 2) as (L1 & _); [ lia | simpl; lia | ].
  destruct (itoa_text_padded (c_min (in_loc t)) 2) as (L2 & _); [ lia | simpl; lia | ].
  destruct (itoa_text_padded (c_sec (in_loc t)) 2) as (L3 & _); [ lia | simpl; lia | ].
  destruct (itoa_text_padded (Z.quot (c_nsec (in_loc t)) 1000) 6) as (L4 & _);
    [ lia | | ].
  { rewrite Z.quot_div_nonneg by lia. split.
    - apply Z.div_pos; lia.
    - apply Z.div_lt_upper_bound; simpl; lia. }
  destruct (has flag Lmicroseconds);
    rewrite !length_app, ?L1, ?L2, ?L3, ?L4; reflexivity.
Qed.

(** X3: for a calendar reading with a four-digit year the time stamp has a
    fixed width: 11 bytes of date when the date flag is set, then 9 bytes
    of time when the time flag or the microseconds flag is set, 16 with the
    microseconds flag (which shows the time even without the time flag);
    nothing otherwise. *)
Theorem stamp_has_fixed_width (buf : Slice) (t : Time) (flag : Z) :
  calendar_ok (in_loc t) ->
  calendar_ok (in_utc t) ->
  exists buf',
    formatStamp buf t flag = Done buf' /\
    length (data buf') =
      (length (data buf) +
       (if has flag Ldate then 11 else 0) +
       (if has flag Ltime || has flag Lmicroseconds
        then (if has flag Lmicroseconds then 16 else 9) else 0))%nat.
Proof.
  intros Hloc Hutc.
  destruct (formatStamp_text buf t flag) as (buf' & Hrun & Hdata).
  exists buf'. split; [ exact Hrun | ].
  rewrite Hdata, length_app. unfold stamp_text. rewrite !has_lor.
  set (t' := if has flag LUTC then UTC t else t).
  assert (Ht' : calendar_ok (in_loc t'))
    by (subst t'; destruct (has flag LUTC); assumption).
  pose proof (date_text_length t' Ht') as Hd.
  pose proof (clock_text_length t' flag Ht') as Hc.
  destruct (has flag Ldate), (has flag Ltime), (has flag Lmicroseconds);
    cbn [orb]; rewrite ?length_app, ?Hd, ?Hc; cbn [length]; lia.
Qed.

(** X4: with the UTC flag the header is a function of the clock's UTC
    reading alone, without it of the reading in the time's own location
    alone. *)
Theorem header_reads_one_clock (buf : Slice) (t1 t2 : Time) (prefix : bytes)
    (flag : Z) (levelStr file : bytes) (line : Z) :
  (if has flag LUTC then in_utc t1 = in_utc t2 else in_loc t1 = in_loc t2) ->
  formatHeader buf t1 prefix flag levelStr file line =
  formatHeader buf t2 prefix flag levelStr file line.
Proof.
  intros H. unfold formatHeader. f_equal.
  unfold formatStamp.
  destruct (has flag (Z.lor (Z.lor Ldate Ltime) Lmicroseconds)); [ | reflexivity ].
  cbv zeta.
  assert (Hsame : in_loc (if has flag LUTC then UTC t1 else t1) =
                  in_loc (if has flag LUTC then UTC t2 else t2))
    by (destruct (has flag LUTC); exact H).
  set (u1 := if has flag LUTC then UTC t1 else t1) in *.
  set (u2 := if has flag LUTC then UTC t2 else t2) in *.
  assert (Hd : forall b, formatDate b u1 = formatDate b u2)
    by (intros b; unfold formatDate, Date; rewrite Hsame; reflexivity).
  assert (Hc : forall b, formatClock b u1 flag = formatClock b u2 flag)
    by (intros b; unfold formatClock, Clock, Nanosecond; rewrite Hsame; reflexivity).
  destruct (has flag Ldate); [ rewrite Hd | ];
    (destruct (formatDate _ u2) || idtac); cbn [bind];
    destruct (has flag (Z.lor Ltime Lmicroseconds)); try rewrite Hc; reflexivity.
Qed.

(** ** The write path, call by call *)

Lemma locate_events e w flag pc calldepth :
  locate e w flag pc calldepth =
    (fst (where_called e flag pc calldepth),
     snd (where_called e flag pc calldepth),
     mkWorld (pool w) (events w ++ caller_events flag pc calldepth)).
Proof.
  unfold where_called, locate, caller_events.
  destruct (has flag (Z.lor Lshortfile Llongfile)).
  - destruct (pc =? 0).
    + destruct (Caller e calldepth) as [[file line] ok].
      destruct ok; reflexivity.
    + destruct (CallersFrames e pc) as [file line]. reflexivity.
  - destruct w as [pl evs]. cbn [fst snd pool events].
    rewrite app_nil_r. reflexivity.
Qed.

Lemma pool_Get_events e w :
  events (snd (pool_Get e w)) = events w ++ [EvGet].
Proof.
  unfold pool_Get. destruct (pool_pick e (pool w)) as [ k | ]; [ | reflexivity ].
  destruct (nth_error (pool w) k); reflexivity.
Qed.

Lemma pool_Get_same_pool e w1 w2 :
  pool w1 = pool w2 ->
  fst (pool_Get e w1) = fst (pool_Get e w2) /\
  pool (snd (pool_Get e w1)) = pool (snd (pool_Get e w2)).
Proof.
  intros H. unfold pool_Get. rewrite H.
  destruct (pool_pick e (pool w2)) as [ k | ]; [ | split; [ reflexivity | exact H ] ].
  destruct (nth_error (pool w2) k); split; try reflexivity. exact H.
Qed.

Lemma putBuffer_pooled p w :
  putBuffer p w = mkWorld (pooled p :: pool w) (events w ++ [EvPut (pooled p)]).
Proof.
  unfold putBuffer, pooled, pool_Put. rewrite Z.gtb_ltb. reflexivity.
Qed.

(** An un-gated call with a writer in place, in full: the buffer rendered,
    the world left behind and the trace. *)
Lemma output_run e l w level pc calldepth appendOutput :
  gated l level = false -> out l <> NilWriter ->
  exists buf,
    data buf =
      header_text (Now e) (Prefix l) (Flags l) (levelTag level)
        (fst (where_called e (Flags l) pc calldepth))
        (snd (where_called e (Flags l) pc calldepth)) /\
    let line := ensure_newline (appendOutput buf) in
    let pre := [EvNow] ++ caller_events (Flags l) pc calldepth ++ [EvGet] in
    output e l w level pc calldepth appendOutput =
      Done (match out l with
            | Sink write => snd (write (events w ++ pre) (data line))
            | _ => None
            end,
            mkWorld (pooled line :: pool (snd (pool_Get e w)))
                    (events w ++ pre ++ [EvWrite (data line); EvPut (pooled line)])).
Proof.
  intros Hg Ho. unfold gated in Hg. apply orb_false_elim in Hg.
  destruct Hg as (Hlvl & Hdis).
  unfold output. rewrite Hlvl, Hdis, locate_events.
  cbn [emit pool events].
  set (w1 := mkWorld (pool w) ((events w ++ [EvNow]) ++
                               caller_events (Flags l) pc calldepth)).
  unfold getBuffer.
  pose proof (pool_Get_events e w1) as Hev.
  destruct (pool_Get_same_pool e w1 w eq_refl) as (_ & Hpool).
  destruct (pool_Get e w1) as [p w2]. cbn [snd] in Hev, Hpool.
  destruct (formatHeader_text (mkSlice [] (capacity p)) (Now e) (Prefix l)
              (Flags l) (levelTag level)
              (fst (where_called e (Flags l) pc calldepth))
              (snd (where_called e (Flags l) pc calldepth)))
    as (buf & Hrun & Hdata).
  exists buf. split; [ exact Hdata | ].
  cbv zeta. rewrite Hrun. cbn [bind].
  assert (Hevs : events w2 =
                 events w ++ [EvNow] ++ caller_events (Flags l) pc calldepth ++ [EvGet])
    by (rewrite Hev; subst w1; cbn [events]; rewrite <- !app_assoc; reflexivity).
  destruct (out l) as [ | | write ]; [ contradiction | | ];
    cbn [sink_Write bind]; rewrite putBuffer_pooled;
    cbn [emit pool events]; rewrite Hpool, Hevs;
    rewrite <- !app_assoc; reflexivity.
Qed.

(** X5: on a logger whose writer is not nil, an emitter that passes the
    gates reads the clock once, resolves the caller (at depth 2) only when a
    file flag is set, takes one buffer from the pool, makes one [Write] and
    then puts one buffer back; the buffer goes back whether or not the write
    failed. *)
Theorem emitter_trace (level : Z) (e : Env) (l : Logger) (w : World)
    (v : list bytes) :
  gated l level = false ->
  out l <> NilWriter ->
  exists w' s,
    emitter level e l w v = Done (tt, w') /\
    events w' =
      events w ++ [EvNow] ++
      (if has (Flags l) (Z.lor Lshortfile Llongfile) then [EvCaller 2] else []) ++
      [EvGet; EvWrite (line_text e l level 0 2 v); EvPut s] /\
    pool w' = s :: pool (snd (pool_Get e w)).
Proof.
  intros Hg Ho. unfold emitter.
  destruct (output_run e l w level 0 2 (fun b => Appendln b v) Hg Ho)
    as (buf & Hdata & Hrun).
  cbv zeta in Hrun. rewrite Hrun. cbn [bind snd].
  rewrite ensure_newline_Appendln.
  assert (Hline : data (Appendln buf v) = line_text e l level 0 2 v).
  { unfold Appendln, line_text. rewrite data_append, Hdata.
    destruct (where_called e (Flags l) 0 2) as [file line].
    reflexivity. }
  eexists _, (pooled (Appendln buf v)). split; [ reflexivity | ].
  cbn [events pool]. rewrite Hline. split; [ | reflexivity ].
  unfold caller_events. change (0 =? 0) with true. cbv iota.
  rewrite <- !app_assoc. reflexivity.
Qed.

Lemma ensure_newline_last b : last (data (ensure_newline b)) 0 = NL.
Proof.
  unfold ensure_newline.
  destruct (len b =? 0) eqn:El; cbn [orb].
  - rewrite data_append. apply last_last.
  - destruct (last (data b) 0 =? NL) eqn:E; cbn [negb].
    + apply Z.eqb_eq. exact E.
    + rewrite data_append. apply last_last.
Qed.

Lemma ensure_newline_nonempty b : data (ensure_newline b) <> [].
Proof.
  unfold ensure_newline.
  destruct (len b =? 0) eqn:El; cbn [orb].
  - rewrite data_append. intros H. apply app_eq_nil in H. destruct H; discriminate.
  - apply Z.eqb_neq in El. unfold len in El.
    destruct (last (data b) 0 =? NL); cbn [negb].
    + intros H. rewrite H in El. apply El. reflexivity.
    + rewrite data_append. intros H. apply app_eq_nil in H. destruct H; discriminate.
Qed.

Lemma ensure_newline_cases b :
  (data b <> [] /\ last (data b) 0 = NL /\ ensure_newline b = b) \/
  ((data b = [] \/ last (data b) 0 <> NL) /\ ensure_newline b = append b [NL]).
Proof.
  unfold ensure_newline, len.
  destruct (data b) as [ | c r ] eqn:Hd.
  - right. split; [ left; reflexivity | reflexivity ].
  - replace (Z.of_nat (length (c :: r)) =? 0) with false
      by (symmetry; apply Z.eqb_neq; cbn [length]; lia).
    cbn [orb]. destruct (last (c :: r) 0 =? NL) eqn:E; cbn [negb].
    + left. apply Z.eqb_eq in E. repeat split; [ discriminate | exact E ].
    + right. apply Z.eqb_neq in E. split; [ right; exact E | reflexivity ].
Qed.

(** X6: on a logger whose writer is not nil, whatever the message closure
    makes of the buffer, an un-gated call writes one non-empty payload that
    ends in ['\n']: the closure's result as it is when that already ends in
    ['\n'], with one ['\n'] added otherwise (also when the closure returns
    an empty buffer). *)
Theorem output_payload_ends_in_newline (e : Env) (l : Logger) (w : World)
    (level pc calldepth : Z) (appendOutput : Slice -> Slice) :
  gated l level = false ->
  out l <> NilWriter ->
  exists buf err w' p,
    data buf =
      header_text (Now e) (Prefix l) (Flags l) (levelTag level)
        (fst (where_called e (Flags l) pc calldepth))
        (snd (where_called e (Flags l) pc calldepth)) /\
    output e l w level pc calldepth appendOutput = Done (err, w') /\
    writes_of (events w') = writes_of (events w) ++ [p] /\
    p <> [] /\ last p 0 = NL /\
    let m := data (appendOutput buf) in
    p = if match m with [] => true | _ => negb (last m 0 =? NL) end
        then m ++ [NL] else m.
Proof.
  intros Hg Ho.
  destruct (output_run e l w level pc calldepth appendOutput Hg Ho)
    as (buf & Hdata & Hrun).
  cbv zeta in Hrun.
  exists buf. eexists _, _, (data (ensure_newline (appendOutput buf))).
  split; [ exact Hdata | ]. split; [ exact Hrun | ].
  split; [ | split; [ apply ensure_newline_nonempty | split; [ apply ensure_newline_last | ] ] ].
  - cbn [events]. rewrite !writes_of_app.
    assert (Hc : writes_of (caller_events (Flags l) pc calldepth) = []).
    { unfold caller_events.
      destruct (has (Flags l) (Z.lor Lshortfile Llongfile)); [ | reflexivity ].
      destruct (pc =? 0); reflexivity. }
    rewrite Hc. cbn [writes_of flat_map app]. reflexivity.
  - cbv zeta.
    destruct (ensure_newline_cases (appendOutput buf))
      as [ (Hne & Hl & ->) | ([ Hnil | Hl ] & ->) ].
    + destruct (data (appendOutput buf)); [ contradiction | ].
      rewrite Hl. reflexivity.
    + rewrite data_append, Hnil. reflexivity.
    + rewrite data_append.
      destruct (data (appendOutput buf)); [ reflexivity | ].
      apply Z.eqb_neq in Hl. rewrite Hl. reflexivity.
Qed.

(** ** The pool across calls *)

Lemma Forall_without_nth {A} (P : A -> Prop) (l : list A) : forall k,
  Forall P l -> Forall P (firstn k l ++ skipn (S k) l).
Proof.
  induction l as [ | a l IH ]; intros k H.
  - destruct k; exact H.
  - inversion H as [ | ? ? Ha Hl ]; subst.
    destruct k as [ | k ]; [ exact Hl | ].
    cbn [firstn skipn app]. constructor; [ exact Ha | apply IH; exact Hl ].
Qed.

Lemma length_without_nth {A} (l : list A) : forall k,
  (length (firstn k l ++ skipn (S k) l) <= length l)%nat.
Proof.
  induction l as [ | a l IH ]; intros k.
  - destruct k; simpl; lia.
  - destruct k as [ | k ]; [ simpl; lia | ].
    specialize (IH k). cbn [firstn app length].
    change (skipn (S (S k)) (a :: l)) with (skipn (S k) l). lia.
Qed.

Lemma pool_Get_bounded e w :
  pool_bounded w ->
  Forall (fun p => capacity p <= 65536) (pool (snd (pool_Get e w))) /\
  (length (pool (snd (pool_Get e w))) <= length (pool w))%nat /\
  capacity (fst (pool_Get e w)) <= 65536.
Proof.
  unfold pool_bounded, pool_Get. intros H.
  destruct (pool_pick e (pool w)) as [ k | ];
    [ | cbn [fst snd pool emit nil_slice capacity]; repeat split; [ exact H | lia | lia ] ].
  destruct (nth_error (pool w) k) as [ p | ] eqn:Hk;
    cbn [fst snd pool emit nil_slice capacity].
  - repeat split.
    + apply Forall_without_nth. exact H.
    + apply length_without_nth.
    + apply nth_error_In in Hk. rewrite Forall_forall in H. apply (H p Hk).
  - repeat split; [ exact H | lia | lia ].
Qed.

Lemma pooled_bounded p : capacity (pooled p) <= 65536.
Proof.
  unfold pooled. destruct (65536 <? capacity p) eqn:E.
  - cbn. lia.
  - apply Z.ltb_ge in E. exact E.
Qed.

(** X7: on a logger whose writer is not nil, the pool never keeps a buffer
    above 64 KiB: if no pooled buffer is larger before a call of [output],
    the call returns and none is larger after it, whatever size the line
    grew to; and the call adds at most one buffer to the pool. *)
Theorem pool_stays_bounded (e : Env) (l : Logger) (w : World)
    (level pc calldepth : Z) (appendOutput : Slice -> Slice) :
  out l <> NilWriter ->
  pool_bounded w ->
  exists err w',
    output e l w level pc calldepth appendOutput = Done (err, w') /\
    pool_bounded w' /\
    (length (pool w') <= S (length (pool w)))%nat.
Proof.
  intros Ho Hw. destruct (gated l level) eqn:Hg.
  - rewrite output_gated by exact Hg.
    exists None, w. repeat split; [ exact Hw | lia ].
  - destruct (output_run e l w level pc calldepth appendOutput Hg Ho)
      as (buf & _ & Hrun).
    cbv zeta in Hrun. rewrite Hrun.
    destruct (pool_Get_bounded e w Hw) as (Hall & Hlen & _).
    eexists _, _. split; [ reflexivity | ].
    unfold pool_bounded. cbn [pool length]. split.
    + constructor; [ apply pooled_bounded | exact Hall ].
    + lia.
Qed.

(** ** Caller resolution *)

Lemma itoa_text_zero : itoa_text 0 (-1) = str "0".
Proof. vm_compute. reflexivity. Qed.

Lemma shortfile_unknown : shortfile (str "???") = str "???".
Proof. vm_compute. reflexivity. Qed.

(** X9: when a file flag is set and [runtime.Caller] fails, the emitters
    render the location as ["???:0: "], short or long. *)
Theorem unresolved_caller_is_question_marks (level : Z) (e : Env) (l : Logger)
    (w : World) (v : list bytes) :
  gated l level = false ->
  out l <> NilWriter ->
  has (Flags l) (Z.lor Lshortfile Llongfile) = true ->
  snd (Caller e 2) = false ->
  exists w',
    emitter level e l w v = Done (tt, w') /\
    writes_of (events w') =
      writes_of (events w) ++
      [Prefix l ++ levelTag level ++ stamp_text (Now e) (Flags l) ++
       str "???:0: " ++ join_space v ++ [NL]].
Proof.
  intros Hg Ho Hf Hc.
  destruct (emitter_writes_line level e l w v Hg Ho) as (w' & Hrun & Hw).
  exists w'. split; [ exact Hrun | ]. rewrite Hw. do 2 f_equal.
  unfold line_text, where_called, locate. rewrite Hf.
  change (0 =? 0) with true. cbv iota.
  destruct (Caller e 2) as [[file line] ok]. cbn [snd] in Hc. subst ok.
  cbn [fst]. unfold header_text, location_text. rewrite Hf.
  rewrite itoa_text_zero, shortfile_unknown.
  destruct (has (Flags l) Lshortfile); rewrite <- !app_assoc; reflexivity.
Qed.

(** X10: when [output] is given a program counter whose frame has no file
    name, it renders ["???"] for the file and keeps the frame's line. *)
Theorem nameless_frame_is_question_marks (level pc : Z) (e : Env) (l : Logger)
    (w : World) (calldepth : Z) (v : list bytes) :
  gated l level = false ->
  out l <> NilWriter ->
  has (Flags l) (Z.lor Lshortfile Llongfile) = true ->
  pc <> 0 ->
  fst (CallersFrames e pc) = [] ->
  exists err w',
    output e l w level pc calldepth (fun b => Appendln b v) = Done (err, w') /\
    writes_of (events w') =
      writes_of (events w) ++
      [Prefix l ++ levelTag level ++ stamp_text (Now e) (Flags l) ++
       str "???:" ++ itoa_text (snd (CallersFrames e pc)) (-1) ++ str ": " ++
       join_space v ++ [NL]].
Proof.
  intros Hg Ho Hf Hpc Hfile.
  destruct (output_Appendln e l w level pc calldepth v Hg Ho)
    as (w' & pre & s & Hrun & Hev & Hpre).
  eexists _, w'. split; [ exact Hrun | ].
  rewrite Hev, !writes_of_app, Hpre. cbn [writes_of flat_map app].
  do 2 f_equal.
  unfold line_text, where_called, locate. rewrite Hf.
  apply Z.eqb_neq in Hpc. rewrite Hpc.
  destruct (CallersFrames e pc) as [file line]. cbn [fst snd] in *. subst file.
  unfold header_text, location_text. rewrite Hf, shortfile_unknown.
  destruct (has (Flags l) Lshortfile); rewrite <- !app_assoc; reflexivity.
Qed.

(** ** Configuration and the gates *)

(** X11: once the output is [io.Discard], every call is a no-op at every
    level, whatever prefix, flags and level are set afterwards; setting a
    real writer again lifts the hint, and lines at or above the minimum
    level are written again. *)
Theorem discard_silences_until_replaced (e : Env) (l : Logger) (w : World)
    (level pc calldepth : Z) (appendOutput : Slice -> Slice)
    (s : bytes) (x m : Z) (v : list bytes)
    (write : list Event -> bytes -> Z * option error) :
  minLevel l <= level ->
  output e (SetLevel m (SetFlags x (SetPrefix s (SetOutput Discard l)))) w
    level pc calldepth appendOutput = Done (None, w) /\
  exists w',
    emitter level e (SetOutput (Sink write) (SetOutput Discard l)) w v
      = Done (tt, w') /\
    writes_of (events w') =
      writes_of (events w) ++
      [line_text e (SetOutput (Sink write) l) level 0 2 v].
Proof.
  intros Hlvl. split.
  - apply output_gated. unfold gated. cbn [isDiscard SetLevel SetFlags SetPrefix SetOutput is_Discard].
    apply orb_true_r.
  - destruct (emitter_writes_line level e
                (SetOutput (Sink write) (SetOutput Discard l)) w v)
      as (w' & Hrun & Hw).
    + unfold gated. cbn [isDiscard minLevel SetOutput is_Discard].
      apply orb_false_intro; [ apply Z.ltb_ge; exact Hlvl | reflexivity ].
    + discriminate.
    + exists w'. split; [ exact Hrun | exact Hw ].
Qed.

(** X12: on a logger whose writer is a real sink and whose minimum level
    is [m], an emitter at [level] writes its line when [m <= level] and
    writes nothing when [level < m]; it completes either way. *)
Theorem level_filter (m level : Z) (e : Env) (l0 : Logger) (w : World)
    (v : list bytes) (write : list Event -> bytes -> Z * option error) :
  let l := SetLevel m (SetOutput (Sink write) l0) in
  exists w',
    emitter level e l w v = Done (tt, w') /\
    writes_of (events w') =
      writes_of (events w) ++
      (if level <? m then [] else [line_text e l level 0 2 v]).
Proof.
  intros l. destruct (level <? m) eqn:Hlt.
  - exists w. unfold emitter. rewrite output_gated.
    + split; [ reflexivity | symmetry; apply app_nil_r ].
    + unfold gated, l. cbn [minLevel isDiscard SetLevel SetOutput is_Discard].
      rewrite Hlt. reflexivity.
  - apply emitter_writes_line.
    + unfold gated, l. cbn [minLevel isDiscard SetLevel SetOutput is_Discard].
      rewrite Hlt. reflexivity.
    + discriminate.
Qed.

(** X13: a logger whose writer is nil panics on the first call that passes
    the level gate, and only then: a call below the minimum level returns
    nil untouched. *)
Theorem nil_writer_panics_when_reached (e : Env) (l0 : Logger) (w : World)
    (level pc calldepth : Z) (appendOutput : Slice -> Slice) :
  output e (SetOutput NilWriter l0) w level pc calldepth appendOutput =
  if level <? minLevel l0 then Done (None, w) else Panic.
Proof.
  unfold output. cbn [minLevel isDiscard out SetOutput is_Discard].
  destruct (level <? minLevel l0); [ reflexivity | ].
  rewrite locate_events. unfold getBuffer.
  destruct (pool_Get e _) as [p w2].
  destruct (formatHeader_text (mkSlice [] (capacity p)) (Now e)
              (Prefix (SetOutput NilWriter l0)) (Flags (SetOutput NilWriter l0))
              (levelTag level)
              (fst (where_called e (Flags (SetOutput NilWriter l0)) pc calldepth))
              (snd (where_called e (Flags (SetOutput NilWriter l0)) pc calldepth)))
    as (buf & Hrun & _).
  rewrite Hrun. reflexivity.
Qed.

Lemma wrap32_range z : int32_range (wrap32 z).
Proof.
  unfold int32_range, wrap32.
  pose proof (Z.mod_pos_bound (z + 2 ^ 31) (2 ^ 32) ltac:(lia)). lia.
Qed.

Lemma land_low_bits a m : 0 <= m < 2 ^ 32 -> Z.land a m = Z.land (a mod 2 ^ 32) m.
Proof.
  intros Hm. rewrite <- (Z.land_ones a 32) by lia.
  rewrite <- Z.land_assoc.
  rewrite (Z.land_comm (Z.ones 32) m), (Z.land_ones m 32) by lia.
  rewrite (Z.mod_small m) by lia. reflexivity.
Qed.

Lemma wrap32_mod z : wrap32 z mod 2 ^ 32 = z mod 2 ^ 32.
Proof.
  unfold wrap32.
  rewrite (Z.mod_eq (z + 2 ^ 31) (2 ^ 32)) by lia.
  set (k := (z + 2 ^ 31) / 2 ^ 32).
  replace (z + 2 ^ 31 - 2 ^ 32 * k - 2 ^ 31) with (z + (- k) * 2 ^ 32) by lia.
  apply Z_mod_plus_full.
Qed.

(** X14: [SetFlags] keeps the low 32 bits of its argument: [Flags] then
    returns an int32, equal to the argument exactly when that fits 32 bits,
    and every flag test against a mask below [2^32] (all defined flags are)
    answers as it would on the argument itself. *)
Theorem SetFlags_keeps_low_bits (l : Logger) (x m : Z) :
  0 <= m < 2 ^ 32 ->
  int32_range (Flags (SetFlags x l)) /\
  (Flags (SetFlags x l) = x <-> int32_range x) /\
  has (Flags (SetFlags x l)) m = has x m.
Proof.
  intros Hm. unfold Flags, SetFlags. cbn [flag].
  split; [ apply wrap32_range | ]. split.
  - split.
    + intros H. rewrite <- H. apply wrap32_range.
    + apply wrap32_id.
  - unfold has.
    rewrite (land_low_bits (wrap32 x) m Hm), (land_low_bits x m Hm), wrap32_mod.
    reflexivity.
Qed.

(** ** The newline guard *)

(** X15: the newline guard adds at most one byte, leaves a buffer that
    ends in ['\n'], and applying it twice is the same as applying it
    once. *)
Theorem ensure_newline_idempotent (b : Slice) :
  ensure_newline (ensure_newline b) = ensure_newline b /\
  last (data (ensure_newline b)) 0 = NL /\
  (data (ensure_newline b) = data b \/ data (ensure_newline b) = data b ++ [NL]).
Proof.
  split; [ | split; [ apply ensure_newline_last | ] ].
  - destruct (ensure_newline_cases (ensure_newline b))
      as [ (_ & _ & H) | ([ H | H ] & _) ].
    + exact H.
    + exfalso. exact (ensure_newline_nonempty b H).
    + exfalso. apply H. apply ensure_newline_last.
  - destruct (ensure_newline_cases b) as [ (_ & _ & ->) | (_ & ->) ].
    + left. reflexivity.
    + right. apply data_append.
Qed.

(** ** Short file names, in general *)

Lemma after_last_slash_None r : after_last_slash r = None -> ~ In SLASH r.
Proof.
  induction r as [ | c r IH ]; intros H; [ intros [] | ].
  cbn [after_last_slash] in H.
  destruct (after_last_slash r); [ discriminate | ].
  destruct (c =? SLASH) eqn:E; [ discriminate | ].
  apply Z.eqb_neq in E. intros [ Hc | Hr ]; [ congruence | ].
  exact (IH eq_refl Hr).
Qed.

Lemma after_last_slash_Some r t :
  after_last_slash r = Some t ->
  exists pre, r = pre ++ SLASH :: t /\ ~ In SLASH t.
Proof.
  revert t. induction r as [ | c r IH ]; intros t H; [ discriminate | ].
  cbn [after_last_slash] in H.
  destruct (after_last_slash r) as [ t' | ] eqn:Hr.
  - injection H as ->. destruct (IH t eq_refl) as (pre & -> & Hno).
    exists (c :: pre). split; [ reflexivity | exact Hno ].
  - destruct (c =? SLASH) eqn:E; [ | discriminate ].
    injection H as ->. apply Z.eqb_eq in E. subst c.
    exists []. split; [ reflexivity | apply after_last_slash_None; exact Hr ].
Qed.

Lemma base_name_no_slash t : ~ In SLASH t -> base_name t = t.
Proof.
  intros H. destruct t as [ | c r ]; [ reflexivity | ].
  unfold base_name. rewrite after_last_slash_none; [ reflexivity | ].
  intros Hr. apply H. right. exact Hr.
Qed.

(** X16: the short form of a path is either the whole path, when no
    separator follows its first byte, or what follows its last separator,
    which then holds no separator; shortening twice changes nothing
    more. *)
Theorem shortfile_is_last_component (file : bytes) :
  ((shortfile file = file /\ ~ In SLASH (tl file)) \/
   (exists pre, pre <> [] /\ file = pre ++ SLASH :: shortfile file /\
                ~ In SLASH (shortfile file))) /\
  shortfile (shortfile file) = shortfile file.
Proof.
  rewrite !shortfile_base_name.
  destruct file as [ | c r ].
  - split; [ left; split; [ reflexivity | intros [] ] | reflexivity ].
  - cbn [tl]. remember (base_name (c :: r)) as sf eqn:Hsf.
    unfold base_name in Hsf.
    destruct (after_last_slash r) as [ t | ] eqn:Hr; subst sf.
    + destruct (after_last_slash_Some r t Hr) as (pre & -> & Hno).
      split.
      * right. exists (c :: pre). repeat split; [ discriminate | exact Hno ].
      * apply base_name_no_slash. exact Hno.
    + split.
      * left. split; [ reflexivity | apply after_last_slash_None; exact Hr ].
      * unfold base_name. rewrite Hr. reflexivity.
Qed.

(** ** Header and calls, in general *)

(** X17: [formatHeader] returns for every clock reading, flag word, file
    and line (no number it renders can leave [itoa]'s scratch array); it
    keeps what the buffer held and appends, in this order, the prefix, the
    level tag, the time stamp and the caller location. *)
Theorem formatHeader_only_appends (buf : Slice) (t : Time) (prefix : bytes)
    (flag : Z) (levelStr file : bytes) (line : Z) :
  exists buf',
    formatHeader buf t prefix flag levelStr file line = Done buf' /\
    data buf' =
      data buf ++ prefix ++ levelStr ++ stamp_text t flag ++
      (if has flag (Z.lor Lshortfile Llongfile)
       then location_text flag file line else []).
Proof.
  destruct (formatHeader_text buf t prefix flag levelStr file line)
    as (buf' & Hrun & Hdata).
  exists buf'. split; [ exact Hrun | exact Hdata ].
Qed.

(** X18: a logger made by [New] answers its accessors with the arguments
    it was made from, and has the discard hint set exactly when the writer
    is [io.Discard]. *)
Theorem New_sets_every_field (o : Writer) (p : bytes) (x lv : Z) :
  int32_range x ->
  uint8_range lv ->
  Writer_of (New o p x lv) = o /\
  Prefix (New o p x lv) = p /\
  Flags (New o p x lv) = x /\
  Level (New o p x lv) = lv /\
  isDiscard (New o p x lv) = is_Discard o.
Proof.
  intros Hx Hlv.
  unfold New, Writer_of, Prefix, Flags, Level, SetLevel, SetFlags, SetPrefix,
    SetOutput.
  cbn [out prefix flag minLevel isDiscard].
  rewrite wrap32_id by exact Hx. rewrite to_byte_id by exact Hlv.
  repeat split.
Qed.

(** X19: for every width [wid] with [-2^63 + 19 < wid <= 20], not only
    those of the formatter, [itoa] renders a non-negative number as its
    decimal digits, zero-padded on the left to [max(wid, number of digits)]
    bytes. *)
Theorem itoa_any_width (buf : Slice) (i wid : Z) :
  0 <= i < 2 ^ 63 ->
  - 2 ^ 63 + 19 < wid <= 20 ->
  exists ds,
    itoa buf i wid = Done (append buf ds) /\
    Forall is_digit ds /\
    decimal_value ds = i /\
    Z.of_nat (length ds) = Z.max wid (ndigits i).
Proof.
  intros Hi Hw.
  destruct (itoa_digits_spec i wid Hw) as (ds & Hds & Hprop).
  destruct (Hprop Hi) as (Hd & Hv & Hl).
  exists ds. unfold itoa. rewrite Hds. cbn [bind].
  repeat split; assumption.
Qed.

(** X20: two calls in a row leave their two lines in the sink in call
    order, each as it would be on its own; the first call's result, failed
    or not, has no part in the second. *)
Theorem two_calls_in_order (lv1 lv2 : Z) (e1 e2 : Env) (l : Logger)
    (w : World) (v1 v2 : list bytes) :
  gated l lv1 = false ->
  gated l lv2 = false ->
  out l <> NilWriter ->
  exists w1 w2,
    emitter lv1 e1 l w v1 = Done (tt, w1) /\
    emitter lv2 e2 l w1 v2 = Done (tt, w2) /\
    writes_of (events w2) =
      writes_of (events w) ++
      [line_text e1 l lv1 0 2 v1; line_text e2 l lv2 0 2 v2].
Proof.
  intros H1 H2 Ho.
  destruct (emitter_writes_line lv1 e1 l w v1 H1 Ho) as (w1 & Hrun1 & Hw1).
  destruct (emitter_writes_line lv2 e2 l w1 v2 H2 Ho) as (w2 & Hrun2 & Hw2).
  exists w1, w2. split; [ exact Hrun1 | ]. split; [ exact Hrun2 | ].
  rewrite Hw2, Hw1, <- app_assoc. reflexivity.
Qed.

End Runtime.

(** * Concrete runs *)

Example itoa_2024 : itoa_digits 2024 4 = Done (str "2024").
Proof. vm_compute. reflexivity. Qed.

Example itoa_7 : itoa_digits 7 2 = Done (str "07").
Proof. vm_compute. reflexivity. Qed.

Example itoa_line : itoa_digits 12345 (-1) = Done (str "12345").
Proof. vm_compute. reflexivity. Qed.

Example itoa_max :
  itoa_digits (2 ^ 63 - 1) 6 = Done (str "9223372036854775807").
Proof. vm_compute. reflexivity. Qed.

(** A width beyond the scratch array is an index out of range. *)
Example itoa_wide : itoa_digits 5 21 = Panic.
Proof. vm_compute. reflexivity. Qed.

(** At the lowest [int] the decrement of the width wraps around to the
    highest, and the loop runs off the array. *)
Example itoa_width_wraps : itoa_digits 10 (- 2 ^ 63) = Panic.
Proof. vm_compute. reflexivity. Qed.

(** [SetFlags] keeps the low 32 bits only. *)
Example SetFlags_truncates : Flags (SetFlags (2 ^ 32 + 3) new_Logger) = 3.
Proof. vm_compute. reflexivity. Qed.

Example shortfile_abc : shortfile (str "/a/b/c.ext") = str "c.ext".
Proof. vm_compute. reflexivity. Qed.

Example header_date_time :
  exists s,
    formatHeader sample_grow nil_slice sample_time (str "APP ") LstdFlags
      (str "[DEBUG] ") [] 0 = Done s /\
    data s = str "APP [DEBUG] 2024/03/05 08:09:07 ".
Proof. eexists. split; vm_compute; reflexivity. Qed.

Example header_utc_micro_short :
  exists s,
    formatHeader sample_grow nil_slice sample_time []
      (Z.lor (Z.lor (Z.lor Ltime Lmicroseconds) LUTC) Lshortfile)
      (str "[ERROR] ") (str "/a/b/c.ext") 42 = Done s /\
    data s = str "[ERROR] 07:09:07.123456 c.ext:42: ".
Proof. eexists. split; vm_compute; reflexivity. Qed.

Example header_longfile :
  exists s,
    formatHeader sample_grow nil_slice sample_time [] Llongfile
      (str "[INFO]  ") (str "/a/b/c.ext") 42 = Done s /\
    data s = str "[INFO]  /a/b/c.ext:42: ".
Proof. eexists. split; vm_compute; reflexivity. Qed.

(** A pooled buffer is reused: what one call releases the next acquires. *)
Example buffer_reused :
  let w1 := putBuffer (mkSlice (str "old line") 64) empty_world in
  getBuffer sample_env w1 =
    (mkSlice [] 64,
     mkWorld [] [EvPut (mkSlice (str "old line") 64); EvGet]).
Proof. vm_compute. reflexivity. Qed.

(** A failed write is reported once and leaves nothing behind: the next
    call on the same logger writes its own line and succeeds. *)
Example failure_then_success :
  let l := New (Sink flaky_sink) (str "APP ") 0 DEBUG in
  exists w1 w2,
    output sample_grow sample_env l empty_world ERROR 0 2
      (fun b => Appendln sample_grow b [str "a"])
      = Done (Some "disk full"%string, w1) /\
    writes_of (events w1) = [str "APP [ERROR] a" ++ [NL]] /\
    output sample_grow sample_env l w1 INFO 0 2
      (fun b => Appendln sample_grow b [str "b"; str "c"])
      = Done (None, w2) /\
    writes_of (events w2) =
      [str "APP [ERROR] a" ++ [NL]; str "APP [INFO]  b c" ++ [NL]].
Proof. do 2 eexists. repeat split; vm_compute; reflexivity. Qed.

(** ** Counterexamples *)

(** C1, as stated, fails: Debug gives its caller the same thing whether the
    sink's [Write] failed or not, so no error can be read from it. *)
Lemma emitters_drop_write_error :
  ~ exists err_of : unit -> option error,
      forall write r,
        returned (Debug sample_grow sample_env (New (Sink write) [] 0 DEBUG)
                    empty_world [str "x"]) = Some r ->
        (err_of r <> None <->
         returned (output sample_grow sample_env (New (Sink write) [] 0 DEBUG)
                     empty_world DEBUG 0 2 (fun b => Appendln sample_grow b [str "x"]))
         <> Some None).
Proof.
  intros (err_of & H).
  pose proof (H failing_sink tt eq_refl) as Hfail.
  pose proof (H ok_sink tt eq_refl) as Hok.
  assert (Hf : returned (output sample_grow sample_env
                           (New (Sink failing_sink) [] 0 DEBUG) empty_world DEBUG 0 2
                           (fun b => Appendln sample_grow b [str "x"]))
               = Some (Some "disk full"%string)) by (vm_compute; reflexivity).
  assert (Ho : returned (output sample_grow sample_env
                           (New (Sink ok_sink) [] 0 DEBUG) empty_world DEBUG 0 2
                           (fun b => Appendln sample_grow b [str "x"]))
               = Some None) by (vm_compute; reflexivity).
  rewrite Hf in Hfail. rewrite Ho in Hok.
  apply (proj1 Hok); [ | reflexivity ].
  apply (proj2 Hfail). discriminate.
Qed.

(** C2, as stated, fails: an operand that ends in a newline gives a line
    that ends in two. *)
Lemma newline_operand_gives_two_newlines :
  exists w',
    Info sample_grow sample_env (New (Sink ok_sink) [] 0 DEBUG) empty_world
      [str "x" ++ [NL]] = Done (tt, w') /\
    writes_of (events w') = [str "[INFO]  x" ++ [NL; NL]] /\
    trailing_newlines (str "[INFO]  x" ++ [NL; NL]) = 2%nat.
Proof. eexists. repeat split; vm_compute; reflexivity. Qed.

(** C6, as stated, fails: with the short-file flag, ["/c.ext"] is rendered
    whole, although the text after its last separator is ["c.ext"]. *)
Lemma leading_separator_not_truncated :
  after_last_slash (str "/c.ext") = Some (str "c.ext") /\
  exists s,
    formatHeader sample_grow nil_slice sample_time [] Lshortfile []
      (str "/c.ext") 7 = Done s /\
    data s = str "/c.ext:7: " /\
    data s <> str "c.ext:7: ".
Proof.
  split; [ vm_compute; reflexivity | ].
  eexists. split; [ vm_compute; reflexivity | ].
  split; [ reflexivity | discriminate ].
Qed.

(** ** Instances of the theorems at concrete inputs *)

Lemma itoa_renders_decimal_witness :
  (0 <= 2024 < 2 ^ 63) /\
  (4 = -1 \/ 4 = 2 \/ 4 = 4 \/ 4 = 6) /\
  exists ds,
    itoa sample_grow nil_slice 2024 4 = Done (append sample_grow nil_slice ds) /\
    data (append sample_grow nil_slice ds) = data nil_slice ++ ds /\
    Forall is_digit ds /\
    decimal_value ds = 2024 /\
    Z.of_nat (length ds) = Z.max 4 (ndigits 2024).
Proof.
  split; [ lia | ]. split; [ lia | ].
  apply (itoa_renders_decimal sample_grow nil_slice 2024 4); lia.
Defined.

Lemma location_rendering_witness :
  has Lshortfile (Z.lor Lshortfile Llongfile) = true /\
  (0 <= 42 < 2 ^ 63) /\
  exists buf' ds,
    formatHeader sample_grow nil_slice sample_time (str "APP ") Lshortfile
      (str "[INFO]  ") (str "/a/b/c.ext") 42 = Done buf' /\
    data buf' =
      data nil_slice ++ str "APP " ++ str "[INFO]  " ++
      stamp_text sample_time Lshortfile ++
      (if has Lshortfile Lshortfile
       then base_name (str "/a/b/c.ext") else str "/a/b/c.ext") ++
      str ":" ++ ds ++ str ": " /\
    Forall is_digit ds /\ decimal_value ds = 42 /\
    Z.of_nat (length ds) = ndigits 42.
Proof.
  split; [ reflexivity | ]. split; [ lia | ].
  apply (location_rendering sample_grow nil_slice sample_time (str "APP ")
           Lshortfile (str "[INFO]  ") (str "/a/b/c.ext") 42);
    [ reflexivity | lia ].
Defined.

Lemma leading_separator_is_kept_witness :
  has Lshortfile Lshortfile = true /\
  ~ In SLASH (str "c.ext") /\
  shortfile (SLASH :: str "c.ext") = SLASH :: str "c.ext" /\
  (exists buf',
     formatLocation sample_grow nil_slice Lshortfile (SLASH :: str "c.ext") 7
       = Done buf' /\
     data buf' =
       data nil_slice ++ (SLASH :: str "c.ext") ++ str ":" ++
       itoa_text 7 (-1) ++ str ": ") /\
  (forall file, shortfile file <> file ->
     exists i, (0 < i < length file)%nat /\ nth i file 0 = SLASH /\
               shortfile file = skipn (i + 1) file).
Proof.
  assert (Hno : ~ In SLASH (str "c.ext")) by (vm_compute; lia).
  split; [ reflexivity | ]. split; [ exact Hno | ].
  apply (leading_separator_is_kept sample_grow nil_slice Lshortfile
           (str "c.ext") 7); [ reflexivity | exact Hno ].
Defined.

Lemma write_error_surfaces_from_output_witness :
  let l := New (Sink failing_sink) (str "APP ") LstdFlags DEBUG in
  out l = Sink failing_sink /\
  exists err w',
    output sample_grow sample_env l empty_world ERROR 0 2
      (fun b => Appendln sample_grow b [str "x"]) = Done (err, w') /\
    emitter sample_grow ERROR sample_env l empty_world [str "x"] = Done (tt, w') /\
    if gated l ERROR then err = None /\ w' = empty_world
    else exists pre s,
      events w' =
        events empty_world ++ pre ++
        [EvWrite (line_text sample_env l ERROR 0 2 [str "x"]); EvPut s] /\
      writes_of pre = [] /\
      err = snd (failing_sink (events empty_world ++ pre)
                   (line_text sample_env l ERROR 0 2 [str "x"])).
Proof.
  intros l. split; [ reflexivity | ].
  apply (write_error_surfaces_from_output sample_grow ERROR sample_env l
           empty_world [str "x"] failing_sink).
  reflexivity.
Defined.

Lemma emitted_line_newlines_witness :
  let l := New (Sink ok_sink) (str "APP ") LstdFlags DEBUG in
  gated l INFO = false /\
  out l <> NilWriter /\
  exists w' p,
    emitter sample_grow INFO sample_env l empty_world [str "a"; str "b"]
      = Done (tt, w') /\
    writes_of (events w') = writes_of (events empty_world) ++ [p] /\
    p = line_text sample_env l INFO 0 2 [str "a"; str "b"] /\
    last p 0 = NL /\
    trailing_newlines p = S (trailing_newlines (join_space [str "a"; str "b"])).
Proof.
  intros l. split; [ reflexivity | ]. split; [ discriminate | ].
  apply (emitted_line_newlines sample_grow INFO sample_env l empty_world
           [str "a"; str "b"]); [ reflexivity | discriminate ].
Defined.

Lemma gated_call_does_nothing_witness :
  let l := New (Sink ok_sink) (str "APP ") LstdFlags ERROR in
  (INFO < minLevel l \/ isDiscard l = true) /\
  output sample_grow sample_env l empty_world INFO 0 2
    (fun b => Appendln sample_grow b [str "x"]) = Done (None, empty_world).
Proof.
  intros l.
  assert (H : INFO < minLevel l \/ isDiscard l = true)
    by (left; vm_compute; reflexivity).
  split; [ exact H | ].
  apply (gated_call_does_nothing sample_grow sample_env l empty_world INFO 0 2
           (fun b => Appendln sample_grow b [str "x"]) H).
Defined.

Lemma setters_round_trip_witness :
  int32_range LstdFlags /\
  uint8_range ERROR /\
  Flags (SetFlags LstdFlags new_Logger) = LstdFlags /\
  Prefix (SetPrefix (str "APP ") new_Logger) = str "APP " /\
  Level (SetLevel ERROR new_Logger) = ERROR /\
  Flags (SetLevel ERROR (SetPrefix (str "APP ") (SetFlags LstdFlags new_Logger)))
    = LstdFlags /\
  Prefix (SetLevel ERROR (SetFlags LstdFlags (SetPrefix (str "APP ") new_Logger)))
    = str "APP " /\
  Level (SetPrefix (str "APP ") (SetFlags LstdFlags (SetLevel ERROR new_Logger)))
    = ERROR.
Proof.
  assert (Hx : int32_range LstdFlags)
    by (vm_compute; split; [ discriminate | reflexivity ]).
  assert (Hv : uint8_range ERROR)
    by (vm_compute; split; [ discriminate | reflexivity ]).
  split; [ exact Hx | ]. split; [ exact Hv | ].
  apply (setters_round_trip new_Logger LstdFlags (str "APP ") ERROR Hx Hv).
Defined.

Lemma level_tag_total_witness :
  let l := New (Sink ok_sink) (str "APP ") 0 DEBUG in
  gated l 7 = false /\
  out l <> NilWriter /\
  exists err w' rest,
    output sample_grow sample_env l empty_world 7 0 2
      (fun b => Appendln sample_grow b [str "x"]) = Done (err, w') /\
    writes_of (events w') =
      writes_of (events empty_world) ++ [Prefix l ++ levelTag 7 ++ rest] /\
    length (levelTag 7) = 8%nat /\
    In (levelTag 7)
       [str "[DEBUG] "; str "[INFO]  "; str "[ERROR] "; str "[?????] "] /\
    (7 = DEBUG -> levelTag 7 = str "[DEBUG] ") /\
    (7 = INFO -> levelTag 7 = str "[INFO]  ") /\
    (7 = ERROR -> levelTag 7 = str "[ERROR] ") /\
    (7 <> DEBUG -> 7 <> INFO -> 7 <> ERROR -> levelTag 7 = str "[?????] ").
Proof.
  intros l. split; [ reflexivity | ]. split; [ discriminate | ].
  apply (level_tag_total sample_grow 7 sample_env l empty_world 0 2 [str "x"]);
    [ reflexivity | discriminate ].
Defined.

(** ** Instances of the further properties *)

Lemma itoa_panics_iff_too_wide_witness :
  (- 2 ^ 63 + 19 < 21 < 2 ^ 63) /\
  (itoa sample_grow nil_slice 7 21 = Panic <-> 20 < 21) /\
  (21 <= 20 -> exists ds, itoa sample_grow nil_slice 7 21
                          = Done (append sample_grow nil_slice ds)).
Proof.
  split; [ lia | ].
  apply (itoa_panics_iff_too_wide sample_grow nil_slice 7 21). lia.
Defined.

Lemma itoa_below_ten_is_one_byte_witness :
  (- 2 ^ 63 <= -5 < 10) /\ (- 2 ^ 63 <= -1 <= 1) /\
  itoa sample_grow nil_slice (-5) (-1)
    = Done (append sample_grow nil_slice [to_byte (ZERO + -5)]).
Proof.
  split; [ lia | ]. split; [ lia | ].
  apply (itoa_below_ten_is_one_byte sample_grow nil_slice (-5) (-1)); lia.
Defined.

Lemma sample_time_ok : calendar_ok (in_loc sample_time) /\ calendar_ok (in_utc sample_time).
Proof. unfold calendar_ok. cbn. lia. Defined.

Lemma stamp_has_fixed_width_witness :
  calendar_ok (in_loc sample_time) /\
  calendar_ok (in_utc sample_time) /\
  exists buf',
    formatStamp sample_grow nil_slice sample_time LstdFlags = Done buf' /\
    length (data buf') =
      (length (data nil_slice) +
       (if has LstdFlags Ldate then 11 else 0) +
       (if has LstdFlags Ltime || has LstdFlags Lmicroseconds
        then (if has LstdFlags Lmicroseconds then 16 else 9) else 0))%nat.
Proof.
  split; [ exact (proj1 sample_time_ok) | ].
  split; [ exact (proj2 sample_time_ok) | ].
  apply (stamp_has_fixed_width sample_grow nil_slice sample_time LstdFlags
           (proj1 sample_time_ok) (proj2 sample_time_ok)).
Defined.

Lemma header_reads_one_clock_witness :
  let flag := Z.lor LUTC Ltime in
  let other := mkTime (mkCivil 1999 12 31 23 59 59 0) (in_utc sample_time) in
  (if has flag LUTC then in_utc sample_time = in_utc other
   else in_loc sample_time = in_loc other) /\
  formatHeader sample_grow nil_slice sample_time (str "APP ") flag
    (str "[INFO]  ") [] 0 =
  formatHeader sample_grow nil_slice other (str "APP ") flag
    (str "[INFO]  ") [] 0.
Proof.
  intros flag other. split; [ reflexivity | ].
  apply (header_reads_one_clock sample_grow nil_slice sample_time other
           (str "APP ") flag (str "[INFO]  ") [] 0).
  reflexivity.
Defined.

Lemma emitter_trace_witness :
  let l := New (Sink failing_sink) (str "APP ") Lshortfile DEBUG in
  gated l INFO = false /\
  out l <> NilWriter /\
  exists w' s,
    emitter sample_grow INFO sample_env l empty_world [str "a"] = Done (tt, w') /\
    events w' =
      events empty_world ++ [EvNow] ++
      (if has (Flags l) (Z.lor Lshortfile Llongfile) then [EvCaller 2] else []) ++
      [EvGet; EvWrite (line_text sample_env l INFO 0 2 [str "a"]); EvPut s] /\
    pool w' = s :: pool (snd (pool_Get sample_env empty_world)).
Proof.
  intros l. split; [ reflexivity | ]. split; [ discriminate | ].
  apply (emitter_trace sample_grow INFO sample_env l empty_world [str "a"]);
    [ reflexivity | discriminate ].
Defined.

Lemma output_payload_ends_in_newline_witness :
  let l := New (Sink ok_sink) (str "APP ") 0 DEBUG in
  let keep := fun b : Slice => b in
  gated l INFO = false /\
  out l <> NilWriter /\
  exists buf err w' p,
    data buf =
      header_text (Now sample_env) (Prefix l) (Flags l) (levelTag INFO)
        (fst (where_called sample_env (Flags l) 0 2))
        (snd (where_called sample_env (Flags l) 0 2)) /\
    output sample_grow sample_env l empty_world INFO 0 2 keep = Done (err, w') /\
    writes_of (events w') = writes_of (events empty_world) ++ [p] /\
    p <> [] /\ last p 0 = NL /\
    let m := data (keep buf) in
    p = if match m with [] => true | _ => negb (last m 0 =? NL) end
        then m ++ [NL] else m.
Proof.
  intros l keep. split; [ reflexivity | ]. split; [ discriminate | ].
  apply (output_payload_ends_in_newline sample_grow sample_env l empty_world
           INFO 0 2 keep); [ reflexivity | discriminate ].
Defined.

Lemma pool_stays_bounded_witness :
  let l := New (Sink ok_sink) (str "APP ") 0 DEBUG in
  let w := mkWorld [mkSlice (str "old") 65536] [] in
  out l <> NilWriter /\
  pool_bounded w /\
  exists err w',
    output sample_grow sample_env l w INFO 0 2
      (fun b => Appendln sample_grow b [str "a"]) = Done (err, w') /\
    pool_bounded w' /\
    (length (pool w') <= S (length (pool w)))%nat.
Proof.
  intros l w.
  assert (Hw : pool_bounded w).
  { unfold pool_bounded, w. cbn [pool]. constructor; [ cbn; lia | constructor ]. }
  split; [ discriminate | ]. split; [ exact Hw | ].
  apply (pool_stays_bounded sample_grow sample_env l w INFO 0 2
           (fun b => Appendln sample_grow b [str "a"]));
    [ discriminate | exact Hw ].
Defined.

Lemma unresolved_caller_is_question_marks_witness :
  let l := New (Sink ok_sink) (str "APP ") Llongfile DEBUG in
  gated l ERROR = false /\
  out l <> NilWriter /\
  has (Flags l) (Z.lor Lshortfile Llongfile) = true /\
  snd (Caller lost_env 2) = false /\
  exists w',
    emitter sample_grow ERROR lost_env l empty_world [str "a"] = Done (tt, w') /\
    writes_of (events w') =
      writes_of (events empty_world) ++
      [Prefix l ++ levelTag ERROR ++ stamp_text (Now lost_env) (Flags l) ++
       str "???:0: " ++ join_space [str "a"] ++ [NL]].
Proof.
  intros l. split; [ reflexivity | ]. split; [ discriminate | ].
  split; [ reflexivity | ]. split; [ reflexivity | ].
  apply (unresolved_caller_is_question_marks sample_grow ERROR lost_env l
           empty_world [str "a"]);
    [ reflexivity | discriminate | reflexivity | reflexivity ].
Defined.

Lemma nameless_frame_is_question_marks_witness :
  let l := New (Sink ok_sink) (str "APP ") Lshortfile DEBUG in
  gated l ERROR = false /\
  out l <> NilWriter /\
  has (Flags l) (Z.lor Lshortfile Llongfile) = true /\
  5 <> 0 /\
  fst (CallersFrames lost_env 5) = [] /\
  exists err w',
    output sample_grow lost_env l empty_world ERROR 5 2
      (fun b => Appendln sample_grow b [str "a"]) = Done (err, w') /\
    writes_of (events w') =
      writes_of (events empty_world) ++
      [Prefix l ++ levelTag ERROR ++ stamp_text (Now lost_env) (Flags l) ++
       str "???:" ++ itoa_text (snd (CallersFrames lost_env 5)) (-1) ++ str ": " ++
       join_space [str "a"] ++ [NL]].
Proof.
  intros l. split; [ reflexivity | ]. split; [ discriminate | ].
  split; [ reflexivity | ]. split; [ discriminate | ]. split; [ reflexivity | ].
  apply (nameless_frame_is_question_marks sample_grow ERROR 5 lost_env l
           empty_world 2 [str "a"]);
    [ reflexivity | discriminate | reflexivity | discriminate | reflexivity ].
Defined.

Lemma discard_silences_until_replaced_witness :
  let l := New (Sink ok_sink) (str "APP ") 0 INFO in
  let app := fun b => Appendln sample_grow b [str "a"] in
  minLevel l <= ERROR /\
  output sample_grow sample_env
    (SetLevel DEBUG (SetFlags LstdFlags (SetPrefix (str "X ") (SetOutput Discard l))))
    empty_world ERROR 0 2 app = Done (None, empty_world) /\
  exists w',
    emitter sample_grow ERROR sample_env
      (SetOutput (Sink ok_sink) (SetOutput Discard l)) empty_world [str "a"]
      = Done (tt, w') /\
    writes_of (events w') =
      writes_of (events empty_world) ++
      [line_text sample_env (SetOutput (Sink ok_sink) l) ERROR 0 2 [str "a"]].
Proof.
  intros l app.
  assert (H : minLevel l <= ERROR) by (vm_compute; discriminate).
  split; [ exact H | ].
  apply (discard_silences_until_replaced sample_grow sample_env l empty_world
           ERROR 0 2 app (str "X ") LstdFlags DEBUG [str "a"] ok_sink H).
Defined.

Lemma SetFlags_keeps_low_bits_witness :
  (0 <= Ldate < 2 ^ 32) /\
  int32_range (Flags (SetFlags (2 ^ 32 + 3) new_Logger)) /\
  (Flags (SetFlags (2 ^ 32 + 3) new_Logger) = 2 ^ 32 + 3
   <-> int32_range (2 ^ 32 + 3)) /\
  has (Flags (SetFlags (2 ^ 32 + 3) new_Logger)) Ldate = has (2 ^ 32 + 3) Ldate.
Proof.
  assert (H : 0 <= Ldate < 2 ^ 32)
    by (vm_compute; split; [ discriminate | reflexivity ]).
  split; [ exact H | ].
  apply (SetFlags_keeps_low_bits new_Logger (2 ^ 32 + 3) Ldate H).
Defined.

Lemma New_sets_every_field_witness :
  int32_range LstdFlags /\
  uint8_range ERROR /\
  Writer_of (New Discard (str "APP ") LstdFlags ERROR) = Discard /\
  Prefix (New Discard (str "APP ") LstdFlags ERROR) = str "APP " /\
  Flags (New Discard (str "APP ") LstdFlags ERROR) = LstdFlags /\
  Level (New Discard (str "APP ") LstdFlags ERROR) = ERROR /\
  isDiscard (New Discard (str "APP ") LstdFlags ERROR) = is_Discard Discard.
Proof.
  assert (Hx : int32_range LstdFlags)
    by (vm_compute; split; [ discriminate | reflexivity ]).
  assert (Hv : uint8_range ERROR)
    by (vm_compute; split; [ discriminate | reflexivity ]).
  split; [ exact Hx | ]. split; [ exact Hv | ].
  apply (New_sets_every_field Discard (str "APP ") LstdFlags ERROR Hx Hv).
Defined.

Lemma itoa_any_width_witness :
  (0 <= 12345 < 2 ^ 63) /\
  (- 2 ^ 63 + 19 < 20 <= 20) /\
  exists ds,
    itoa sample_grow nil_slice 12345 20 = Done (append sample_grow nil_slice ds) /\
    Forall is_digit ds /\
    decimal_value ds = 12345 /\
    Z.of_nat (length ds) = Z.max 20 (ndigits 12345).
Proof.
  split; [ lia | ]. split; [ lia | ].
  apply (itoa_any_width sample_grow nil_slice 12345 20); lia.
Defined.

Lemma two_calls_in_order_witness :
  let l := New (Sink flaky_sink) (str "APP ") 0 DEBUG in
  gated l ERROR = false /\
  gated l INFO = false /\
  out l <> NilWriter /\
  exists w1 w2,
    emitter sample_grow ERROR sample_env l empty_world [str "a"] = Done (tt, w1) /\
    emitter sample_grow INFO lost_env l w1 [str "b"] = Done (tt, w2) /\
    writes_of (events w2) =
      writes_of (events empty_world) ++
      [line_text sample_env l ERROR 0 2 [str "a"];
       line_text lost_env l INFO 0 2 [str "b"]].
Proof.
  intros l. split; [ reflexivity | ]. split; [ reflexivity | ].
  split; [ discriminate | ].
  apply (two_calls_in_order sample_grow ERROR INFO sample_env lost_env l
           empty_world [str "a"] [str "b"]);
    [ reflexivity | reflexivity | discriminate ].
Defined.
